(** * ProBros CRM: the deal-pipeline board

    A shallow embedding of the [KanbanBoard] component (its source is the
    second part of [src/components/KanbanCard.tsx]), together with what it
    depends on: the [Deal] types (in [src/App.tsx]), the card and column
    components that produce its drag events ([KanbanCard], [KanbanColumn])
    and the [Dashboard] parent that supplies its callbacks.

    The board keeps the deals in a [useState] cell.  [fetchDeals] replaces
    them with what the server returns; [handleDragEnd] moves one deal to
    another column at once, sends the new status to the server and puts
    the deal back when the request fails.  Both are [async] functions with
    one [await]: each is split here into the part that runs up to the
    request and the part that runs once the request has settled. *)

From Stdlib Require Import Ascii.
From stdpp Require Import gmap strings list fin_maps pretty.

Local Open Scope Z_scope.
Local Open Scope string_scope.
Local Open Scope list_scope.

(** ** Data model ([src/types]) *)

(** [DealStatus] is a closed union of eight string literals. *)
Inductive DealStatus :=
| lead
| contacted
| qualified
| quotes_sent
| trial_order
| active_customer
| retained_growing
| lost_customer.

#[global] Instance DealStatus_eq_dec : EqDecision DealStatus.
Proof. solve_decision. Defined.

(** The string literal each member of the union stands for at run time. *)
Definition status_id (s : DealStatus) : string :=
  match s with
  | lead => "lead"
  | contacted => "contacted"
  | qualified => "qualified"
  | quotes_sent => "quotes_sent"
  | trial_order => "trial_order"
  | active_customer => "active_customer"
  | retained_growing => "retained_growing"
  | lost_customer => "lost_customer"
  end.

Inductive CommissionStatus := pending | paid.

Inductive ActivityType := call | email | meeting | status_change | note.

Record NamedRef := { ref_id : Z; ref_name : string }.

Record CommissionDeal := {
  cd_id : Z;
  cd_title : string;
  cd_value : Z;
  cd_company : option string
}.

Record Commission := {
  commission_id : Z;
  commission_deal_id : Z;
  commission_deal : option CommissionDeal;
  commission_user : option NamedRef;
  commission_amount : Z;
  commission_calculation_date : option string;
  commission_status : CommissionStatus;
  commission_created_at : option string
}.

Record ActivityLog := {
  log_id : Z;
  log_deal_id : Z;
  log_user_id : Z;
  log_user : option NamedRef;
  log_activity_type : ActivityType;
  log_notes : option string;
  log_created_at : option string
}.

(** [Deal]: optional fields ([color?: string] and the like) are [option]s.
    Identifiers are integers; amounts are carried through untouched by the
    board and are kept as integers of the smallest currency unit. *)
Record Deal := {
  id : Z;
  title : string;
  value : Z;
  status : DealStatus;
  color : option string;
  description : option string;
  company : option string;
  owner : option string;
  contact : option NamedRef;
  commission : option Commission;
  activity_logs : option (list ActivityLog);
  created_at : option string;
  updated_at : option string
}.

Record KanbanColumnDef := { col_id : DealStatus; label : string }.

(** ** Constants of the board *)

Definition COLUMNS : list KanbanColumnDef :=
  [ {| col_id := lead; label := "Lead" |};
    {| col_id := contacted; label := "Contacted" |};
    {| col_id := qualified; label := "Qualified" |};
    {| col_id := quotes_sent; label := "Quotes / Pricing Sent" |};
    {| col_id := trial_order; label := "Trial Order" |};
    {| col_id := active_customer; label := "Active Customer" |};
    {| col_id := retained_growing; label := "Retained / Growing" |};
    {| col_id := lost_customer; label := "Lost Customer" |} ].

Definition STATUS_COLORS (s : DealStatus) : string :=
  match s with
  | lead => "#3b82f6"
  | contacted => "#8b5cf6"
  | qualified => "#6366f1"
  | quotes_sent => "#eab308"
  | trial_order => "#f97316"
  | active_customer => "#10b981"
  | retained_growing => "#22c55e"
  | lost_customer => "#ef4444"
  end.

(** ** Column partition

    [COLUMNS.reduce((acc, col) => { acc[col.id] = deals.filter(...); return acc }, {})] *)

Definition in_column (s : DealStatus) (d : Deal) : Prop := status d = s.

#[global] Instance in_column_dec s d : Decision (in_column s d).
Proof. unfold in_column. apply _. Defined.

Definition dealsByStatus (deals : list Deal) : gmap string (list Deal) :=
  foldl (λ acc col, <[status_id (col_id col) := filter (in_column (col_id col)) deals]> acc)
        ∅ COLUMNS.

(** What the board hands to each column: [dealsByStatus[col.id] || []],
    columns taken in the order of [COLUMNS]. *)
Definition column_deals (m : gmap string (list Deal)) (col : KanbanColumnDef) : list Deal :=
  default [] (m !! status_id (col_id col)).

Definition board_columns (deals : list Deal) : list (list Deal) :=
  column_deals (dealsByStatus deals) <$> COLUMNS.

Definition all_statuses : list DealStatus := col_id <$> COLUMNS.

(** ** Numbers, [parseInt] and [String]

    The JavaScript numbers that occur here: [NaN], the two infinities, and
    the numbers with an integer value, [Num z] for the value [z].  [===]
    on two such numbers is structural equality except that [NaN] differs
    from itself.  Deal identifiers are integers, so [d.id === dealId] holds
    exactly when [dealId] is that integer. *)
Inductive JsNumber :=
| NaN
| Num (z : Z)
| Infinity (negative : bool).

#[global] Instance JsNumber_eq_dec : EqDecision JsNumber.
Proof. solve_decision. Defined.

(** [Number.MAX_SAFE_INTEGER]: up to it every integer is a number of its
    own, is printed by [String] with all its digits and is read back by
    [parseInt] as itself. *)
Definition MAX_SAFE_INTEGER : Z := 2 ^ 53 - 1.

Definition safe_integer (n : Z) : Prop :=
  (- MAX_SAFE_INTEGER ≤ n ≤ MAX_SAFE_INTEGER)%Z.

#[global] Instance safe_integer_dec n : Decision (safe_integer n).
Proof. unfold safe_integer. apply _. Defined.

(** The number nearest to the integer [m ≥ 0]: [m] itself when it has at
    most 53 bits, otherwise [m] rounded to 53 significant bits, a tie going
    to the even one. *)
Definition round_magnitude (m : Z) : Z :=
  let bits := Z.log2 m + 1 in
  if (bits <=? 53)%Z then m
  else
    let k := bits - 53 in
    let q := Z.shiftr m k in
    let r := m - Z.shiftl q k in
    let half := Z.shiftl 1 (k - 1) in
    let q' := if ((half <? r) || ((r =? half) && Z.odd q))%Z then q + 1 else q in
    Z.shiftl q' k.

(** The number that stands for the integer [m]; from [2^1024] on it is
    infinite. *)
Definition to_double (m : Z) : JsNumber :=
  let v := round_magnitude (Z.abs m) in
  if (1024 <=? Z.log2 v)%Z then Infinity (m <? 0)%Z
  else Num (Z.sgn m * v).

Definition is_whitespace (c : ascii) : bool :=
  let n := N_of_ascii c in
  orb (N.eqb n 32) (andb (N.leb 9 n) (N.leb n 13)).

Definition digit_value (c : ascii) : option Z :=
  let n := Z.of_N (N_of_ascii c) in
  if andb (Z.leb 48 n) (Z.leb n 57) then Some (n - 48) else None.

Fixpoint trim_start (s : string) : string :=
  match s with
  | String c s' => if is_whitespace c then trim_start s' else s
  | EmptyString => s
  end.

(** The longest prefix of decimal digits, read left to right; [None] when
    the prefix is empty. *)
Fixpoint parse_digits (s : string) (acc : option Z) : option Z :=
  match s with
  | String c s' =>
      match digit_value c with
      | Some d => parse_digits s' (Some (10 * default 0 acc + d))
      | None => acc
      end
  | EmptyString => acc
  end.

(** [parseInt(s, 10)]: leading white space (of the ASCII range) is
    skipped, an optional sign is read, then the digits; anything after them
    is ignored, and no digit at all gives [NaN].  The result is the number
    that stands for the integer written, all its digits counting. *)
Definition parseInt (s : string) : JsNumber :=
  let s := trim_start s in
  let '(sign, digits) :=
    match s with
    | String "-" s' => (-1, s')
    | String "+" s' => (1, s')
    | _ => (1, s)
    end in
  match parse_digits digits None with
  | Some n => to_double (sign * n)
  | None => NaN
  end.

(** *** [String] of a number with an integer value

    Beyond the safe integers [String] prints the fewest digits that still
    denote the number, [k] digits [s] with [s * 10^(n-k)] standing for it,
    the nearest such [s] if there are several; the digits are followed by
    zeros up to 21 digits in all, and by an exponent from there on. *)
Definition decimal_digits (x : Z) : Z :=
  Z.of_nat (String.length (pretty x)).

Definition shortest_candidates (x n k : Z) : list (Z * Z) :=
  let p := 10 ^ (n - k) in
  let s0 := x / p in
  (λ s, (n, s))
    <$> filter (λ s, (k ≤ n ∧ 10 ^ (k - 1) ≤ s < 10 ^ k)%Z
                     ∧ round_magnitude (s * p) = x)
          [s0; s0 + 1].

Definition nearer (x k : Z) (a b : Z * Z) : Z * Z :=
  let da := Z.abs (a.2 * 10 ^ (a.1 - k) - x) in
  let db := Z.abs (b.2 * 10 ^ (b.1 - k) - x) in
  if (da <? db)%Z then a
  else if (db <? da)%Z then b
  else if Z.even a.2 then a else b.

Definition shortest_with (x k : Z) : option (Z * Z * Z) :=
  let nd := decimal_digits x in
  match shortest_candidates x nd k ++ shortest_candidates x (nd + 1) k with
  | [] => None
  | c :: cs => let '(n, s) := foldl (nearer x k) c cs in Some (n, k, s)
  end.

(** [(n, k, s)] for the number [x > 0]; seventeen digits always suffice. *)
Definition shortest_digits (x : Z) : Z * Z * Z :=
  default (decimal_digits x, decimal_digits x, x)
    (head (omap (shortest_with x) (seqZ 1 17))).

Fixpoint zeros (n : nat) : string :=
  match n with
  | O => ""
  | S n => String "0" (zeros n)
  end.

Definition Number_toString (x : Z) : string :=
  let '(n, k, s) := shortest_digits x in
  if (n <=? 21)%Z then pretty s +:+ zeros (Z.to_nat (n - k))
  else
    match pretty s with
    | String d rest =>
        String d (if decide (rest = "") then "" else "." +:+ rest)
        +:+ "e+" +:+ pretty (n - 1)
    | EmptyString => ""
    end.

(** [String(n)] of a number with the integer value [n]; an integer that is
    no number of its own stands for the number nearest to it. *)
Definition String_of (n : Z) : string :=
  if decide (safe_integer n) then pretty n
  else
    match to_double n with
    | Num v => (if (v <? 0)%Z then "-" else "") +:+ Number_toString (Z.abs v)
    | Infinity negative => if negative then "-Infinity" else "Infinity"
    | NaN => "NaN"
    end.

(** ** Drag events ([DropResult] of the drag-and-drop library)

    The only droppables inside the board's [DragDropContext] are its
    columns, [<Droppable droppableId={column.id}>], which is what the casts
    [destination.droppableId as DealStatus] rely on. *)
Record DraggableLocation := { droppableId : DealStatus; index : nat }.

#[global] Instance DraggableLocation_eq_dec : EqDecision DraggableLocation.
Proof. solve_decision. Defined.

Record DropResult := {
  draggableId : string;
  source : DraggableLocation;
  destination : option DraggableLocation
}.

(** ** Component state of [KanbanBoard] (its five [useState] cells) *)
Record BoardState := {
  deals : list Deal;
  loading : bool;
  error : option string;
  updating : option JsNumber;
  selectedDealId : option Z
}.

(** [useState] initial values. *)
Definition initial_board : BoardState :=
  {| deals := []; loading := true; error := None; updating := None;
     selectedDealId := None |}.

(** ** What the board does to the outside *)
Inductive Event :=
| GetDeals                                          (* one call of api.get('/deals') *)
| PatchDeal (dealId : JsNumber) (st : DealStatus)  (* one call of api.patch(`/deals/${dealId}`, { status }) *)
| StatsRefresh                                      (* onStatsRefresh() *)
| DealsCountChange (count : nat)                    (* onDealsCountChange(count) *)
| ConsoleError (msg : string)
| SetTimeout (ms : Z).                              (* setTimeout(() => setError(null), ms) *)

#[global] Instance Event_eq_dec : EqDecision Event.
Proof. solve_decision. Defined.

(** How a promise of the remote API settles. *)
Inductive Settled := Fulfilled | Rejected.

(** The body of a fulfilled [GET /deals]: either [{ data: Deal[] }] or a
    bare array, as [response.data.data || response.data] allows. *)
Inductive DealsBody :=
| Enveloped (data : list Deal)
| BareArray (data : list Deal).

Inductive FetchSettled :=
| FetchFulfilled (body : DealsBody)
| FetchRejected.

(** [a || b] for a string [a]: the empty string is the only falsy one. *)
Definition or_else (a : string) (b : option string) : option string :=
  if decide (a = "") then b else Some a.

(** [{ ...d, status: s, color: c }] *)
Definition spread_status_color (d : Deal) (s : DealStatus) (c : option string) : Deal :=
  {| id := id d; title := title d; value := value d;
     status := s; color := c;
     description := description d; company := company d; owner := owner d;
     contact := contact d; commission := commission d;
     activity_logs := activity_logs d;
     created_at := created_at d; updated_at := updated_at d |}.

(** What [handleDragEnd] still holds when it suspends at its [await]:
    the variables of its closure that the rest of its body reads. *)
Record MoveClosure := {
  mc_deals : list Deal;
  mc_dealId : JsNumber;
  mc_newStatus : DealStatus;
  mc_oldStatus : DealStatus;
  mc_dealIndex : nat;
  mc_originalDeal : Deal
}.

(** ** The board as a state transformer

    The board's props carry two optional callbacks of its parent; [Parent]
    is the parent component's state, which the callbacks update. *)
Record KanbanBoardProps (Parent : Type) := {
  onDealsCountChange : option (nat → Parent → Parent);
  refreshTrigger : option Z;
  onStatsRefresh : option (Parent → Parent)
}.
Arguments onDealsCountChange {Parent} _.
Arguments refreshTrigger {Parent} _.
Arguments onStatsRefresh {Parent} _.

Record World (Parent : Type) := {
  board : BoardState;
  parent : Parent;
  trace : list Event
}.
Arguments Build_World {Parent} _ _ _.
Arguments board {Parent} _.
Arguments parent {Parent} _.
Arguments trace {Parent} _.

Section Board.
Context {Parent : Type} (props : KanbanBoardProps Parent).

(** A computation over the world: state setters write the board's cells,
    calls to the outside are appended to the trace. *)
Definition M (A : Type) : Type := World Parent → A * World Parent.

#[global] Instance M_ret : MRet M := λ A a w, (a, w).
#[global] Instance M_bind : MBind M :=
  λ A B f m w, let '(a, w') := m w in f a w'.

Definition update_board (f : BoardState → BoardState) : M unit :=
  λ w, (tt, {| board := f (board w); parent := parent w; trace := trace w |}).

Definition emit (e : Event) : M unit :=
  λ w, (tt, {| board := board w; parent := parent w; trace := trace w ++ [e] |}).

Definition update_parent (f : Parent → Parent) : M unit :=
  λ w, (tt, {| board := board w; parent := f (parent w); trace := trace w |}).

(** The [deals] variable of the render whose handler is starting: the
    current state (see Interleavings below). *)
Definition read_deals : M (list Deal) := λ w, (deals (board w), w).

Definition setDeals (ds : list Deal) : M unit :=
  update_board (λ b, {| deals := ds; loading := loading b; error := error b;
                        updating := updating b; selectedDealId := selectedDealId b |}).

Definition setLoading (l : bool) : M unit :=
  update_board (λ b, {| deals := deals b; loading := l; error := error b;
                        updating := updating b; selectedDealId := selectedDealId b |}).

Definition setError (e : option string) : M unit :=
  update_board (λ b, {| deals := deals b; loading := loading b; error := e;
                        updating := updating b; selectedDealId := selectedDealId b |}).

Definition setUpdating (u : option JsNumber) : M unit :=
  update_board (λ b, {| deals := deals b; loading := loading b; error := error b;
                        updating := u; selectedDealId := selectedDealId b |}).

Definition setSelectedDealId (s : option Z) : M unit :=
  update_board (λ b, {| deals := deals b; loading := loading b; error := error b;
                        updating := updating b; selectedDealId := s |}).

(** [onStatsRefresh?.()] *)
Definition call_onStatsRefresh : M unit :=
  match onStatsRefresh props with
  | Some f => emit StatsRefresh ;; update_parent f
  | None => mret tt
  end.

(** [onDealsCountChange?.(n)] *)
Definition call_onDealsCountChange (n : nat) : M unit :=
  match onDealsCountChange props with
  | Some f => emit (DealsCountChange n) ;; update_parent (f n)
  | None => mret tt
  end.

(** *** [fetchDeals]

    The part up to [await api.get('/deals')], and the part that runs once
    the request has settled. *)
Definition fetchDeals_begin : M unit :=
  setError None ;; emit GetDeals.

Definition fetchDeals_resume (r : FetchSettled) : M unit :=
  match r with
  | FetchFulfilled body =>
      let dealsData := match body with Enveloped d => d | BareArray d => d end in
      setDeals dealsData ;;
      call_onDealsCountChange (length dealsData)
  | FetchRejected =>
      emit (ConsoleError "Failed to fetch deals:") ;;
      setError (Some "Failed to load deals. Please try again.")
  end ;;
  setLoading false.

(** *** [handleDragEnd]

    The part up to [await api.patch(...)]: [None] when the handler has
    returned, [Some c] when it is suspended on the request with closure
    [c].  [findIndex] followed by [deals[dealIndex]] is [list_find]. *)
Definition handleDragEnd_begin (result : DropResult) : M (option MoveClosure) :=
  match destination result with
  | None => mret None
  | Some dest =>
      let src := source result in
      if decide (droppableId dest = droppableId src ∧ index dest = index src)
      then mret None
      else
        deals ← read_deals;
        let dealId := parseInt (draggableId result) in
        let newStatus := droppableId dest in
        let oldStatus := droppableId src in
        match list_find (λ d, Num (id d) = dealId) deals with
        | None => mret None
        | Some (dealIndex, originalDeal) =>
            let updatedDeals :=
              <[dealIndex :=
                  spread_status_color originalDeal newStatus
                    (or_else (STATUS_COLORS newStatus) (color originalDeal))]> deals in
            setDeals updatedDeals ;;
            setUpdating (Some dealId) ;;
            emit (PatchDeal dealId newStatus) ;;
            mret (Some {| mc_deals := deals; mc_dealId := dealId;
                          mc_newStatus := newStatus; mc_oldStatus := oldStatus;
                          mc_dealIndex := dealIndex;
                          mc_originalDeal := originalDeal |})
        end
  end.

(** The rest of the [try], its [catch] and its [finally]. *)
Definition handleDragEnd_resume (c : MoveClosure) (r : Settled) : M unit :=
  match r with
  | Fulfilled => call_onStatsRefresh
  | Rejected =>
      emit (ConsoleError "Failed to update deal status:") ;;
      let rolledBackDeals := <[mc_dealIndex c := mc_originalDeal c]> (mc_deals c) in
      setDeals rolledBackDeals ;;
      setError (Some ("Failed to move deal. Reverted to "
                      +:+ status_id (mc_oldStatus c) +:+ ".")) ;;
      emit (SetTimeout 3000)
  end ;;
  setUpdating None.

(** The callback given to [setTimeout]. *)
Definition error_timeout : M unit := setError None.

Definition handleCardClick (dealId : Z) : M unit := setSelectedDealId (Some dealId).

(** One whole run of [handleDragEnd] with nothing else in between: the
    request settles as [r]. *)
Definition handleDragEnd (result : DropResult) (r : Settled) : M unit :=
  c ← handleDragEnd_begin result;
  match c with
  | Some c => handleDragEnd_resume c r
  | None => mret tt
  end.

(** One whole run of [fetchDeals]. *)
Definition fetchDeals (r : FetchSettled) : M unit :=
  fetchDeals_begin ;; fetchDeals_resume r.

End Board.

(** ** What the board renders *)

(** Truthiness of [error], [updating] and [selectedDealId] in
    [{error && ...}], [{updating && ...}] and [!!selectedDealId]. *)
Definition truthy_string (s : option string) : option string :=
  match s with
  | Some e => if decide (e = "") then None else Some e
  | None => None
  end.

Definition truthy_number (n : option JsNumber) : bool :=
  match n with
  | Some (Num z) => bool_decide (z ≠ 0)
  | Some (Infinity _) => true
  | _ => false
  end.

(** What a button of the view runs when clicked. *)
Inductive Handler := RunFetchDeals.

(** The red banner: the message and its Retry button. *)
Record ErrorBanner := { banner_text : string; banner_retry : Handler }.

Inductive View :=
| LoadingView
| BoardView (banner : option ErrorBanner)
            (columns : list (KanbanColumnDef * list Deal))
            (updatingToast : bool)
            (detailOpen : bool).

Definition render (b : BoardState) : View :=
  if loading b then LoadingView
  else
    let dealsByStatus := dealsByStatus (deals b) in
    BoardView
      ((λ e, {| banner_text := e; banner_retry := RunFetchDeals |})
         <$> truthy_string (error b))
      ((λ col, (col, column_deals dealsByStatus col)) <$> COLUMNS)
      (truthy_number (updating b))
      (bool_decide (is_Some (selectedDealId b) ∧ selectedDealId b ≠ Some 0)).

(** The drag that the library reports for the card shown at position [i] of
    column [col] ([<Draggable draggableId={String(deal.id)} index={index}>]
    inside [<Droppable droppableId={column.id}>]) when it is dropped at
    [dest]; there is no such drag when the column has no card there. *)
Definition card_drag (deals : list Deal) (col : DealStatus) (i : nat)
    (dest : option DraggableLocation) : option DropResult :=
  d ← filter (in_column col) deals !! i;
  Some {| draggableId := String_of (id d);
          source := {| droppableId := col; index := i |};
          destination := dest |}.

(** ** The parent: [Dashboard] *)
Record DashboardState := {
  dealsCount : nat;
  showCreateModal : bool;
  dashboard_refreshTrigger : Z;
  statsRefreshTrigger : Z
}.

Definition initial_dashboard : DashboardState :=
  {| dealsCount := 0; showCreateModal := false;
     dashboard_refreshTrigger := 0; statsRefreshTrigger := 0 |}.

Definition setDealsCount (n : nat) (s : DashboardState) : DashboardState :=
  {| dealsCount := n; showCreateModal := showCreateModal s;
     dashboard_refreshTrigger := dashboard_refreshTrigger s;
     statsRefreshTrigger := statsRefreshTrigger s |}.

(** [setStatsRefreshTrigger((prev) => prev + 1)] *)
Definition handleStatsRefresh (s : DashboardState) : DashboardState :=
  {| dealsCount := dealsCount s; showCreateModal := showCreateModal s;
     dashboard_refreshTrigger := dashboard_refreshTrigger s;
     statsRefreshTrigger := statsRefreshTrigger s + 1 |}.

Definition dashboard_props (s : DashboardState) : KanbanBoardProps DashboardState :=
  {| onDealsCountChange := Some setDealsCount;
     refreshTrigger := Some (dashboard_refreshTrigger s);
     onStatsRefresh := Some handleStatsRefresh |}.

(** ** Interleavings

    The handlers are asynchronous: between the moment one of them issues
    its request and the moment that request settles, the user may act
    again and other requests may settle.  Each user event is handled by the
    handler of the latest render, whose [deals] is the current state; the
    part of a handler that runs after its [await] reads the variables of
    the render it was started in. *)
Inductive InFlight :=
| MoveRequest (c : MoveClosure)
| DealsRequest.

Record Sys (Parent : Type) := {
  world : World Parent;
  inflight : list InFlight
}.
Arguments Build_Sys {Parent} _ _.
Arguments world {Parent} _.
Arguments inflight {Parent} _.

Inductive Action :=
| CallFetchDeals                              (* the mount effect, or the Retry button *)
| DragEnd (result : DropResult)               (* the user drops a card *)
| Settle (i : nat) (r : Settled)              (* the i-th request in flight, a PATCH, settles *)
| SettleDeals (i : nat) (r : FetchSettled)    (* the i-th request in flight, a GET, settles *)
| TimeoutFires.

Section Interleaving.
Context {Parent : Type} (props : KanbanBoardProps Parent).

Definition step (s : Sys Parent) (a : Action) : Sys Parent :=
  match a with
  | CallFetchDeals =>
      {| world := (fetchDeals_begin (world s)).2;
         inflight := inflight s ++ [DealsRequest] |}
  | DragEnd result =>
      let '(c, w) := handleDragEnd_begin result (world s) in
      {| world := w;
         inflight := inflight s ++ from_option (λ c, [MoveRequest c]) [] c |}
  | Settle i r =>
      match inflight s !! i with
      | Some (MoveRequest c) =>
          {| world := (handleDragEnd_resume props c r (world s)).2;
             inflight := delete i (inflight s) |}
      | _ => s
      end
  | SettleDeals i r =>
      match inflight s !! i with
      | Some DealsRequest =>
          {| world := (fetchDeals_resume props r (world s)).2;
             inflight := delete i (inflight s) |}
      | _ => s
      end
  | TimeoutFires =>
      {| world := (error_timeout (world s)).2; inflight := inflight s |}
  end.

Definition run (s : Sys Parent) (acts : list Action) : Sys Parent :=
  foldl step s acts.

End Interleaving.

(** The board right after mounting inside a fresh dashboard. *)
Definition initial_world : World DashboardState :=
  {| board := initial_board; parent := initial_dashboard; trace := [] |}.

(** A board that has loaded [ds]. *)
Definition loaded_world (ds : list Deal) : World DashboardState :=
  {| board := {| deals := ds; loading := false; error := None;
                 updating := None; selectedDealId := None |};
     parent := setDealsCount (length ds) initial_dashboard;
     trace := [] |}.

(** The entry of the store for an identifier: the first deal that has it,
    the one [findIndex((d) => d.id === dealId)] stops at. *)
Definition findById (dealId : Z) (ds : list Deal) : option Deal :=
  snd <$> list_find (λ d, id d = dealId) ds.

Definition calls_of (e : Event) (t : list Event) : nat :=
  length (filter (λ x, x = e) t).

Definition is_remote_call (e : Event) : bool :=
  match e with
  | GetDeals | PatchDeal _ _ => true
  | _ => false
  end.

Definition remote_calls (t : list Event) : list Event :=
  filter (λ e, is_remote_call e = true) t.

(** A plain deal for examples: only the fields the board looks at vary. *)
Definition sample_deal (i : Z) (s : DealStatus) : Deal :=
  {| id := i; title := "Deal"; value := 1000;
     status := s; color := Some (STATUS_COLORS s);
     description := None; company := None; owner := None;
     contact := None; commission := None; activity_logs := None;
     created_at := None; updated_at := None |}.

(** The world once the optimistic update has been written and the request
    issued. *)
Definition optimistic {Parent} (w : World Parent) (n : JsNumber) (i : nat)
    (D : Deal) (S : DealStatus) : World Parent :=
  {| board :=
       {| deals := <[i := spread_status_color D S
                             (or_else (STATUS_COLORS S) (color D))]> (deals (board w));
          loading := loading (board w);
          error := error (board w);
          updating := Some n;
          selectedDealId := selectedDealId (board w) |};
     parent := parent w;
     trace := trace w ++ [PatchDeal n S] |}.

(** Whether a message mentions a word: [needle] occurs somewhere in [hay]. *)
Fixpoint mentions (needle hay : string) : bool :=
  if String.prefix needle hay then true
  else match hay with
       | String _ rest => mentions needle rest
       | EmptyString => false
       end.

(** ** Scenarios

    Boards and drags used to run the handlers on concrete inputs. *)
Definition at_column (s : DealStatus) (i : nat) : DraggableLocation :=
  {| droppableId := s; index := i |}.

(** The drag of the card of deal [dealId] from one place to another. *)
Definition drag (dealId : Z) (from : DraggableLocation)
    (to : option DraggableLocation) : DropResult :=
  {| draggableId := String_of dealId; source := from; destination := to |}.

Definition props0 : KanbanBoardProps DashboardState :=
  dashboard_props initial_dashboard.

Definition one_lead : list Deal := [sample_deal 1 lead].

Definition two_leads : list Deal := [sample_deal 1 lead; sample_deal 2 lead].

Definition idle (ds : list Deal) : Sys DashboardState :=
  {| world := loaded_world ds; inflight := [] |}.

(** Two moves in flight at once: deal 1 is dragged to Qualified, then,
    before that request settles, deal 2 is dragged to Contacted; the first
    request is rejected, the second one fulfilled. *)
Definition overlapping_moves : list Action :=
  [ DragEnd (drag 1 (at_column lead 0) (Some (at_column qualified 0)));
    DragEnd (drag 2 (at_column lead 0) (Some (at_column contacted 0)));
    Settle 0 Rejected;
    Settle 0 Fulfilled ].

(** The same two moves, the second started only after the first settled. *)
Definition successive_moves : list Action :=
  [ DragEnd (drag 1 (at_column lead 0) (Some (at_column qualified 0)));
    Settle 0 Rejected;
    DragEnd (drag 2 (at_column lead 1) (Some (at_column contacted 0)));
    Settle 0 Fulfilled ].

(** Two moves of the same deal in flight at once: deal 1 is dragged to
    Qualified and from there to Contacted; the first request is rejected,
    the second one fulfilled. *)
Definition overlapping_moves_of_one_deal : list Action :=
  [ DragEnd (drag 1 (at_column lead 0) (Some (at_column qualified 0)));
    DragEnd (drag 1 (at_column qualified 0) (Some (at_column contacted 0)));
    Settle 0 Rejected;
    Settle 0 Fulfilled ].

(** ** Cards and columns ([KanbanCard], [KanbanColumn])

    What the two components draw from their props.  The amount of a deal
    is formatted by the browser and is not part of the view below. *)

(** [s || d] for an optional string [s]: a missing or empty [s] gives [d]. *)
Definition or_default (s : option string) (d : string) : string :=
  default d (truthy_string s).

Record CardView := {
  card_draggableId : string;
  card_index : nat;
  card_borderLeftColor : string;
  card_title : string;
  card_company : string;
  card_owner : string
}.

Definition KanbanCard (deal : Deal) (index : nat) : CardView :=
  {| card_draggableId := String_of (id deal);
     card_index := index;
     card_borderLeftColor := or_default (color deal) "#cbd5e1";
     card_title := title deal;
     card_company := or_default (company deal) "No Company";
     card_owner := or_default (owner deal) "Unassigned" |}.

Record ColumnView := {
  column_droppableId : DealStatus;
  column_label : string;
  column_count : nat;
  column_cards : list CardView;
  column_noDeals : bool
}.

(** [isDraggingOver] comes from the drag-and-drop library. *)
Definition KanbanColumn (column : KanbanColumnDef) (deals : list Deal)
    (isDraggingOver : bool) : ColumnView :=
  {| column_droppableId := col_id column;
     column_label := label column;
     column_count := length deals;
     column_cards := imap (λ index deal, KanbanCard deal index) deals;
     column_noDeals := bool_decide (length deals = 0%nat) && negb isDraggingOver |}.

(** [COLUMNS.map((col) => <KanbanColumn column={col}
    deals={dealsByStatus[col.id] || []} ... />)] *)
Definition board_view (ds : list Deal) (isDraggingOver : DealStatus → bool)
    : list ColumnView :=
  (λ col, KanbanColumn col (column_deals (dealsByStatus ds) col)
            (isDraggingOver (col_id col))) <$> COLUMNS.

(** [handleClick] of a card: [if (e.defaultPrevented) return;
    onCardClick?.(deal.id)]. *)
Definition KanbanCard_handleClick {Parent : Type} (defaultPrevented : bool)
    (deal : Deal) (onCardClick : option (Z → M (Parent:=Parent) unit))
    : M (Parent:=Parent) unit :=
  if defaultPrevented then mret tt
  else match onCardClick with
       | Some f => f (id deal)
       | None => mret tt
       end.

(** A click on a card of the board: the board hands [handleCardClick] down
    to its cards. *)
Definition card_click {Parent : Type} (defaultPrevented : bool) (deal : Deal)
    : M (Parent:=Parent) unit :=
  KanbanCard_handleClick defaultPrevented deal (Some handleCardClick).

(** [onClose={() => setSelectedDealId(null)}] of the detail modal. *)
Definition close_detail {Parent : Type} : M (Parent:=Parent) unit :=
  setSelectedDealId None.

(** ** What a move leaves alone, and what it keeps *)

(** The fields of a deal other than [status] and [color]. *)
Definition other_fields (d : Deal) :=
  (id d, title d, value d, description d, company d, owner d,
   contact d, commission d, activity_logs d, created_at d, updated_at d).

(** A deal whose colour is the colour of its status. *)
Definition color_matches_status (d : Deal) : Prop :=
  color d = Some (STATUS_COLORS (status d)).

#[global] Instance color_matches_status_dec d : Decision (color_matches_status d).
Proof. unfold color_matches_status. apply _. Defined.

(** ** Counting requests *)

Definition is_patch (e : Event) : bool :=
  match e with
  | PatchDeal _ _ => true
  | _ => false
  end.

(** The status updates sent so far. *)
Definition patches (t : list Event) : nat :=
  length (filter (λ e, is_patch e = true) t).

(** The status updates that were rejected, each logged by the [catch]. *)
Definition move_failures (t : list Event) : nat :=
  calls_of (ConsoleError "Failed to update deal status:") t.

Definition is_move (x : InFlight) : bool :=
  match x with
  | MoveRequest _ => true
  | DealsRequest => false
  end.

(** The status updates still waiting for their answer. *)
Definition moves_in_flight (l : list InFlight) : nat :=
  length (filter (λ x, is_move x = true) l).


(** ** More of [Dashboard] *)

Definition refreshAll (s : DashboardState) : DashboardState :=
  {| dealsCount := dealsCount s; showCreateModal := showCreateModal s;
     dashboard_refreshTrigger := dashboard_refreshTrigger s + 1;
     statsRefreshTrigger := statsRefreshTrigger s + 1 |}.

Definition handleDealCreated (_deal : option Deal) (s : DashboardState)
    : DashboardState :=
  refreshAll s.

(** An effect with a dependency array runs again after a render in which
    one of its dependencies has changed.  The board's effect depends on
    [fetchDeals] and on its [refreshTrigger] prop; [fetchDeals] changes
    only with [onDealsCountChange], for which [Dashboard] passes the state
    setter [setDealsCount], which never changes.  The effect of
    [CommissionWidget] depends on its [refreshTrigger] prop, which is
    [statsRefreshTrigger]. *)
Definition board_refetches (before after : DashboardState) : bool :=
  bool_decide (dashboard_refreshTrigger before ≠ dashboard_refreshTrigger after).

Definition widget_refetches (before after : DashboardState) : bool :=
  bool_decide (statsRefreshTrigger before ≠ statsRefreshTrigger after).

(** ** [CommissionWidget]

    The widget loads the statistics when it mounts and again whenever its
    [refreshTrigger] prop changes; it never sets [loading] back to [true]. *)
Record DashboardStats := {
  total_active_deals : Z;
  monthly_commission : Z;
  total_paid_commission : Z;
  total_pending_commission : Z;
  total_sales_revenue : Z;
  total_won_value : Z;
  deals_per_stage : DealStatus → Z;
  month : Z;
  year : Z
}.

Record WidgetState := {
  stats : option DashboardStats;
  widget_loading : bool
}.

Definition initial_widget : WidgetState :=
  {| stats := None; widget_loading := true |}.

Inductive StatsSettled :=
| StatsFulfilled (data : DashboardStats)
| StatsRejected.

(** [fetchStats] once [api.get('/dashboard-stats')] has settled; before
    that it changes nothing.  The second component is what it logs. *)
Definition fetchStats_resume (r : StatsSettled) (st : WidgetState)
    : WidgetState * list string :=
  match r with
  | StatsFulfilled data =>
      ({| stats := Some data; widget_loading := false |}, [])
  | StatsRejected =>
      ({| stats := stats st; widget_loading := false |},
       ["Failed to fetch dashboard stats:"])
  end.

(** What the widget shows: grey boxes while loading, then the period and
    four figures, [stats?.field ?? 0] each (the three amounts are handed to
    the browser's number formatting). *)
Inductive WidgetView :=
| Skeleton
| Figures (period : string) (paid pending active revenue : Z).

Definition widget_render (st : WidgetState) : WidgetView :=
  if widget_loading st then Skeleton
  else
    Figures
      (from_option (λ s, "Periode " +:+ String_of (month s) +:+ "/"
                         +:+ String_of (year s)) "" (stats st))
      (default 0 (total_paid_commission <$> stats st))
      (default 0 (total_pending_commission <$> stats st))
      (default 0 (total_active_deals <$> stats st))
      (default 0 (total_sales_revenue <$> stats st)).

(** The widget after a series of refreshes has settled, in that order. *)
Definition widget_after (st : WidgetState) (rs : list StatsSettled) : WidgetState :=
  foldl (λ st r, (fetchStats_resume r st).1) st rs.

(** ** The interceptors of [api]

    Every request of the board goes through them.  The browser is its
    local storage and the path of the page shown. *)
Record Browser := {
  localStorage : gmap string string;
  pathname : string
}.

Record RequestConfig := {
  url : string;
  headers : option (gmap string string)
}.

(** The request interceptor: [if (token) { config.headers = config.headers
    ?? {}; config.headers.Authorization = `Bearer ${token}` }]. *)
Definition request_interceptor (b : Browser) (config : RequestConfig) : RequestConfig :=
  match truthy_string (localStorage b !! "auth_token") with
  | Some token =>
      {| url := url config;
         headers := Some (<["Authorization" := "Bearer " +:+ token]>
                            (default ∅ (headers config))) |}
  | None => config
  end.

(** The response interceptor on an error whose response, if there is one,
    has the given status; the error itself is rejected again in every
    case.  Assigning [window.location.href] loads the login page. *)
Definition response_error_interceptor (status : option Z) (b : Browser) : Browser :=
  if decide (status = Some 401) then
    {| localStorage := delete "auth_user" (delete "auth_token" (localStorage b));
       pathname := if decide (pathname b ≠ "/login") then "/login" else pathname b |}
  else b.

(** ** [ActivityLoggerModal]: the contact search and the submitted form *)

Record Contact := {
  contact_id : Z;
  contact_company_id : Z;
  contact_company : option NamedRef;
  contact_name : string;
  contact_email : option string;
  contact_phone : option string;
  contact_position : option string;
  contact_deals_count : option Z;
  contact_created_at : option string;
  contact_updated_at : option string
}.

Section ContactSearch.
(** [String.prototype.toLowerCase] and [String.prototype.trim]. *)
Variables (toLowerCase trim : string → string).




End ContactSearch.

Inductive MeetingType := Online | Offline.

#[global] Instance ActivityType_eq_dec : EqDecision ActivityType.
Proof. solve_decision. Defined.

(** The cells of the form that [handleSubmit] reads. *)
Record ActivityForm := {
  activityType : ActivityType;
  meetingType : MeetingType;
  startTime : string;
  duration : string;
  notes : string;
  form_dealId : string;
  selectedContact : option Contact
}.

(** The body posted to [/activity-logs]. *)
Record ActivityPayload := {
  activity_type : ActivityType;
  meeting_type : option MeetingType;
  start_time : string;
  payload_duration : JsNumber;
  payload_notes : string;
  deal_id : option JsNumber;
  payload_contact_id : option Z;
  payload_company_id : option Z
}.

(** [n || null] and [n ? ... : ...] for an optional number: 0 counts as
    missing. *)
Definition truthy_id (n : option Z) : option Z :=
  match n with
  | Some 0 => None
  | _ => n
  end.

(** The form as the effect resets it when the modal opens; [now] is
    [new Date().toISOString().slice(0, 16)]. *)
Definition reset_form (now : string) (preselectedContact : option Contact)
    (preselectedDealId : option Z) : ActivityForm :=
  {| activityType := call;
     meetingType := Online;
     startTime := now;
     duration := "30";
     notes := "";
     form_dealId := from_option String_of "" (truthy_id preselectedDealId);
     selectedContact := preselectedContact |}.

Definition submit_payload (f : ActivityForm) : ActivityPayload :=
  {| activity_type := activityType f;
     meeting_type := if decide (activityType f = meeting)
                     then Some (meetingType f) else None;
     start_time := startTime f;
     payload_duration := parseInt (duration f);
     payload_notes := notes f;
     deal_id := if decide (form_dealId f = "") then None
                else Some (parseInt (form_dealId f));
     payload_contact_id := truthy_id (contact_id <$> selectedContact f);
     payload_company_id :=
       truthy_id (ref_id <$> (selectedContact f ≫= contact_company)) |}.

(** ** More on interleavings *)

(** The two moves of [overlapping_moves], both waiting for their answer. *)
Definition two_moves_pending : list Action :=
  [ DragEnd (drag 1 (at_column lead 0) (Some (at_column qualified 0)));
    DragEnd (drag 2 (at_column lead 0) (Some (at_column contacted 0))) ].

(** Then the first of them is rejected; the second is still waiting. *)
Definition first_move_rejected : list Action :=
  two_moves_pending ++ [Settle 0 Rejected].

Definition closure_of (x : InFlight) : option MoveClosure :=
  match x with
  | MoveRequest c => Some c
  | DealsRequest => None
  end.

(** The answers that replace the store: a fulfilled [GET /deals]. *)
Definition is_fulfilled_fetch (a : Action) : bool :=
  match a with
  | SettleDeals _ (FetchFulfilled _) => true
  | _ => false
  end.

Definition no_fulfilled_fetch (acts : list Action) : Prop :=
  Forall (λ a, is_fulfilled_fetch a = false) acts.

(** A move in flight whose closure holds a store with the given fields
    other than status and colour, and the deal it found at its index. *)
Definition snapshot_of {F : Type} (fields : list F) (of_deal : Deal → F)
    (x : InFlight) : Prop :=
  match x with
  | MoveRequest c =>
      of_deal <$> mc_deals c = fields
      ∧ mc_deals c !! mc_dealIndex c = Some (mc_originalDeal c)
  | DealsRequest => True
  end.

(** * Properties *)

(** ** Numbers: [parseInt] reads back what [String] prints *)

Lemma digit_value_pretty (x : N) :
  (x < 10)%N → digit_value (pretty_N_char x) = Some (Z.of_N x).
Proof.
  intros Hx.
  assert (x = 0 ∨ x = 1 ∨ x = 2 ∨ x = 3 ∨ x = 4 ∨ x = 5 ∨ x = 6
          ∨ x = 7 ∨ x = 8 ∨ x = 9)%N as Hcases by lia.
  repeat destruct Hcases as [->|Hcases]; try subst x; reflexivity.
Qed.

Lemma parse_digits_pretty_go (x : N) (s : string) :
  (0 < x)%N →
  parse_digits (pretty_N_go x s) None = parse_digits s (Some (Z.of_N x)).
Proof.
  revert s. induction (N.lt_wf_0 x) as [x _ IH]; intros s Hx.
  rewrite pretty_N_go_step by done.
  assert (x `mod` 10 < 10)%N as Hmod by (apply N.mod_lt; lia).
  destruct (decide (x `div` 10 = 0)%N) as [Hdiv|Hdiv].
  - rewrite Hdiv, pretty_N_go_0. simpl.
    rewrite digit_value_pretty by done. simpl. f_equal. f_equal.
    pose proof (N.div_mod x 10 ltac:(done)) as Hdm.
    revert Hdm Hdiv. generalize (x `mod` 10)%N (x `div` 10)%N. lia.
  - assert (x `div` 10 < x)%N as Hlt by (apply N.div_lt; lia).
    assert (0 < x `div` 10)%N as Hpos by (by apply N.neq_0_lt_0).
    rewrite (IH _ Hlt _ Hpos). simpl.
    rewrite digit_value_pretty by done. simpl. f_equal. f_equal.
    pose proof (N.div_mod x 10 ltac:(done)) as Hdm.
    revert Hdm Hdiv. generalize (x `mod` 10)%N (x `div` 10)%N. lia.
Qed.

(** The printed form of a positive number starts with a digit, so neither
    white space nor a sign is taken off it. *)
Lemma pretty_go_head (x : N) (s : string) :
  (0 < x)%N →
  ∃ c s', pretty_N_go x s = String c s' ∧ is_Some (digit_value c).
Proof.
  revert s. induction (N.lt_wf_0 x) as [x _ IH]; intros s Hx.
  rewrite pretty_N_go_step by done.
  assert (x `mod` 10 < 10)%N as Hmod by (apply N.mod_lt; lia).
  destruct (decide (x `div` 10 = 0)%N) as [Hdiv|Hdiv].
  - rewrite Hdiv, pretty_N_go_0. eexists _, _. split; [done|].
    rewrite digit_value_pretty by done. eauto.
  - assert (x `div` 10 < x)%N as Hlt by (apply N.div_lt; lia).
    assert (0 < x `div` 10)%N as Hpos by (by apply N.neq_0_lt_0).
    apply (IH _ Hlt _ Hpos).
Qed.

Lemma digit_not_special (c : ascii) :
  is_Some (digit_value c) →
  is_whitespace c = false ∧ c ≠ "-"%char ∧ c ≠ "+"%char.
Proof.
  intros [d Hd]. unfold digit_value in Hd.
  destruct (Z.leb 48 _ && Z.leb _ 57) eqn:Hrange; [|done].
  apply andb_true_iff in Hrange as [H1%Z.leb_le H2%Z.leb_le].
  split_and!.
  - unfold is_whitespace.
    apply orb_false_iff; split; [apply N.eqb_neq; lia|].
    apply andb_false_iff; right. apply N.leb_gt. lia.
  - intros ->. simpl in *. lia.
  - intros ->. simpl in *. lia.
Qed.

(** On the safe integers no rounding happens. *)
Lemma to_double_safe (n : Z) : safe_integer n → to_double n = Num n.
Proof.
  unfold safe_integer, MAX_SAFE_INTEGER. intros Hn.
  assert (Z.log2 (Z.abs n) < 53) as Hlog.
  { destruct (decide (Z.abs n = 0)) as [->|Hnz]; [done|].
    apply Z.log2_lt_pow2; lia. }
  assert (round_magnitude (Z.abs n) = Z.abs n) as Hround.
  { unfold round_magnitude.
    by rewrite (proj2 (Z.leb_le (Z.log2 (Z.abs n) + 1) 53)) by lia. }
  unfold to_double. rewrite Hround.
  rewrite (proj2 (Z.leb_gt 1024 (Z.log2 (Z.abs n)))) by lia.
  f_equal. lia.
Qed.

Lemma parseInt_digits (c : ascii) (s : string) :
  is_Some (digit_value c) →
  parseInt (String c s)
  = match parse_digits (String c s) None with
    | Some n => to_double (1 * n)
    | None => NaN
    end.
Proof.
  intros Hc. destruct (digit_not_special c Hc) as (Hws & Hm & Hp).
  unfold parseInt. simpl trim_start. rewrite Hws.
  destruct c as [[] [] [] [] [] [] [] []]; try done.
Qed.

Lemma parseInt_pretty_pos (p : positive) :
  parseInt (pretty (N.pos p)) = to_double (Z.pos p).
Proof.
  unfold pretty, pretty_N. rewrite decide_False by done.
  destruct (pretty_go_head (N.pos p) "" ltac:(lia)) as (c & s' & Heq & Hc).
  rewrite Heq, parseInt_digits by done. rewrite <- Heq.
  rewrite parse_digits_pretty_go by lia. simpl parse_digits.
  f_equal.
Qed.

Lemma parseInt_minus (s : string) :
  parseInt (String "-" s)
  = match parse_digits s None with
    | Some n => to_double (-1 * n)
    | None => NaN
    end.
Proof. reflexivity. Qed.

(** What [String] prints for a safe integer, [parseInt] reads back. *)
Lemma parseInt_String_of (n : Z) :
  safe_integer n → parseInt (String_of n) = Num n.
Proof.
  intros Hsafe. unfold String_of. rewrite decide_True by done.
  rewrite <- (to_double_safe n Hsafe).
  destruct n as [|p|p]; [reflexivity|apply parseInt_pretty_pos|].
  trans (parseInt (String "-" (pretty (N.pos p)))); [reflexivity|].
  rewrite parseInt_minus.
  unfold pretty, pretty_N. rewrite decide_False by done.
  rewrite parse_digits_pretty_go by lia. simpl parse_digits.
  f_equal.
Qed.

(** Beyond the safe integers this fails: what [String] prints for
    [10^21] is read back as 1, and the neighbours of [2^53] are printed
    and read back as [2^53]. *)
Example String_of_large :
  String_of (10 ^ 21) = "1e+21"
  ∧ parseInt (String_of (10 ^ 21)) = Num 1
  ∧ String_of (2 ^ 60) = "1152921504606847000"
  ∧ parseInt "9007199254740993" = Num 9007199254740992.
Proof. by vm_compute. Qed.

(** ** The column partition *)

Lemma status_id_inj : Inj (=) (=) status_id.
Proof. intros [] []; simpl; intros H; try reflexivity; discriminate H. Qed.

Lemma dealsByStatus_lookup (ds : list Deal) (s : DealStatus) :
  dealsByStatus ds !! status_id s = Some (filter (in_column s) ds).
Proof.
  unfold dealsByStatus; simpl.
  destruct s; simpl; by simplify_map_eq.
Qed.

Lemma dealsByStatus_dom (ds : list Deal) :
  dom (dealsByStatus ds) = list_to_set (status_id <$> all_statuses).
Proof.
  unfold dealsByStatus; simpl.
  rewrite !dom_insert_L, dom_empty_L. set_solver.
Qed.

Lemma board_columns_eq (ds : list Deal) :
  board_columns ds = (λ s, filter (in_column s) ds) <$> all_statuses.
Proof.
  unfold board_columns, column_deals, all_statuses.
  rewrite <- list_fmap_compose. apply list_fmap_ext.
  intros _ col _. simpl. by rewrite dealsByStatus_lookup.
Qed.

(** Every deal falls in exactly one of the eight columns. *)
Lemma columns_concat_perm (ds : list Deal) :
  concat (board_columns ds) ≡ₚ ds.
Proof.
  rewrite board_columns_eq.
  induction ds as [|d l IH]; [reflexivity|].
  etrans; [|apply Permutation_skip, IH].
  unfold all_statuses; simpl. rewrite !app_nil_r.
  destruct (status d) eqn:E;
    repeat first
      [ rewrite (filter_cons_True (in_column _) d l) by exact E
      | rewrite (filter_cons_False (in_column _) d l)
          by (unfold in_column; rewrite E; discriminate) ];
    simpl; repeat (reflexivity || rewrite <- Permutation_middle).
Qed.

(** The values of the mapping, in whatever order its keys are walked. *)
Lemma dealsByStatus_values (ds : list Deal) :
  (map_to_list (dealsByStatus ds)).*2 ≡ₚ board_columns ds.
Proof.
  rewrite board_columns_eq.
  unfold dealsByStatus, all_statuses; simpl.
  repeat (rewrite map_to_list_insert by (by simplify_map_eq)).
  rewrite map_to_list_empty. simpl.
  symmetry.
  apply (reverse_Permutation
           [filter (in_column lost_customer) ds; filter (in_column retained_growing) ds;
            filter (in_column active_customer) ds; filter (in_column trial_order) ds;
            filter (in_column quotes_sent) ds; filter (in_column qualified) ds;
            filter (in_column contacted) ds; filter (in_column lead) ds]).
Qed.

(** C4. For every collection of deals the partition has exactly the eight
    pipeline statuses as keys (a status without deals is mapped to the
    empty list), the bucket of a status holds exactly the deals of that
    status, in the order of the input, and all the buckets together are a
    permutation of the input. *)
Theorem partition_complete (ds : list Deal) :
  dom (dealsByStatus ds)
  = ({[ "lead"; "contacted"; "qualified"; "quotes_sent"; "trial_order";
        "active_customer"; "retained_growing"; "lost_customer" ]} : gset string)
  ∧ size (dealsByStatus ds) = 8%nat
  ∧ (∀ s, dealsByStatus ds !! status_id s = Some (filter (in_column s) ds))
  ∧ (∀ s, Forall (λ d, status d ≠ s) ds → dealsByStatus ds !! status_id s = Some [])
  ∧ (∀ s d, d ∈ filter (in_column s) ds ↔ d ∈ ds ∧ status d = s)
  ∧ (∀ s, filter (in_column s) ds `sublist_of` ds)
  ∧ concat (board_columns ds) ≡ₚ ds
  ∧ concat (map_to_list (dealsByStatus ds)).*2 ≡ₚ ds.
Proof.
  split_and!.
  - rewrite dealsByStatus_dom. unfold all_statuses; simpl. set_solver.
  - rewrite <- size_dom, dealsByStatus_dom.
    rewrite size_list_to_set; [done|].
    apply (bool_decide_unpack _). by vm_compute.
  - apply dealsByStatus_lookup.
  - intros s Hnone. rewrite dealsByStatus_lookup. f_equal.
    induction Hnone as [|d l Hd _ IH]; [done|].
    by rewrite filter_cons_False.
  - intros s d. rewrite list_elem_of_filter. unfold in_column. tauto.
  - intros s. apply sublist_filter.
  - apply columns_concat_perm.
  - rewrite dealsByStatus_values. apply columns_concat_perm.
Qed.

(** ** Looking deals up *)

Lemma list_find_insert_other {A} (P : A → Prop) `{!∀ x, Decision (P x)}
    (l : list A) (i : nat) (x y : A) :
  l !! i = Some x → ¬ P x → ¬ P y → list_find P (<[i:=y]> l) = list_find P l.
Proof.
  revert i. induction l as [|a l IH]; intros i Hi Hx Hy; [done|].
  destruct i as [|i]; simpl in *.
  - injection Hi as ->. by rewrite !decide_False by done.
  - destruct (decide (P a)); [done|]. by rewrite (IH i).
Qed.

Lemma list_find_insert_same {A} (P : A → Prop) `{!∀ x, Decision (P x)}
    (l : list A) (i : nat) (x y : A) :
  list_find P l = Some (i, x) → P y → list_find P (<[i:=y]> l) = Some (i, y).
Proof.
  intros (Hi & _ & Hleast)%list_find_Some Hy.
  apply list_find_insert_Some. right; left.
  split_and!; eauto using lookup_lt_Some.
Qed.

Lemma list_find_number (z : Z) (ds : list Deal) :
  list_find (λ d, Num (id d) = Num z) ds = list_find (λ d, id d = z) ds.
Proof. apply list_find_ext. intros d. split; [by intros [=]|by intros ->]. Qed.

Lemma list_find_NaN (ds : list Deal) :
  list_find (λ d, Num (id d) = NaN) ds = None.
Proof. apply list_find_None, Forall_forall. intros d _. discriminate. Qed.

Lemma findById_Some (z : Z) (ds : list Deal) (D : Deal) :
  findById z ds = Some D →
  ∃ i, list_find (λ d, Num (id d) = Num z) ds = Some (i, D) ∧ id D = z.
Proof.
  unfold findById. rewrite list_find_number.
  destruct (list_find _ ds) as [[i D']|] eqn:Hfind; [|done].
  intros [= ->]. exists i. split; [done|].
  by apply list_find_Some in Hfind as (_ & ? & _).
Qed.

Lemma findById_None (z : Z) (ds : list Deal) :
  findById z ds = None → list_find (λ d, Num (id d) = Num z) ds = None.
Proof.
  unfold findById. rewrite list_find_number.
  by destruct (list_find _ ds).
Qed.

Lemma findById_insert_same (z : Z) (ds : list Deal) (i : nat) (D D' : Deal) :
  list_find (λ d, Num (id d) = Num z) ds = Some (i, D) → id D' = z →
  findById z (<[i:=D']> ds) = Some D'.
Proof.
  rewrite list_find_number. intros Hfind Hid. unfold findById.
  by rewrite (list_find_insert_same _ _ _ _ _ Hfind Hid).
Qed.

Lemma findById_insert_other (b : Z) (ds : list Deal) (i : nat) (D D' : Deal) :
  ds !! i = Some D → id D ≠ b → id D' ≠ b →
  findById b (<[i:=D']> ds) = findById b ds.
Proof.
  intros Hi HD HD'. unfold findById.
  by rewrite (list_find_insert_other _ _ _ _ _ Hi HD HD').
Qed.

(** [findIndex] never returns an index past the end, so the two array
    writes of [handleDragEnd] replace an existing element. *)
Lemma dealIndex_in_range (n : JsNumber) (ds : list Deal) (i : nat) (D : Deal) :
  list_find (λ d, Num (id d) = n) ds = Some (i, D) → (i < length ds)%nat.
Proof. intros (Hi & _)%list_find_Some. eauto using lookup_lt_Some. Qed.

(** With identifiers that are unique every deal of the store is the entry
    of its own identifier. *)
Lemma findById_member (ds : list Deal) (D : Deal) :
  NoDup (id <$> ds) → D ∈ ds → findById (id D) ds = Some D.
Proof.
  intros Hnodup (i & Hi)%list_elem_of_lookup. unfold findById.
  assert (list_find (λ d, id d = id D) ds = Some (i, D)) as ->; [|done].
  apply list_find_Some. split_and!; [done..|].
  intros j B Hj Hlt Heq.
  assert (i = j); [|lia].
  apply (NoDup_lookup (id <$> ds) i j (id D)); [done|..];
    rewrite list_lookup_fmap; [by rewrite Hi|rewrite Hj; simpl; by rewrite Heq].
Qed.

(** The drags that come from the cards of the board carry the identifier of
    a deal of the store whose status is the source column, as long as the
    identifiers are safe integers. *)
Lemma card_drag_deal (ds : list Deal) (col : DealStatus) (i : nat)
    (to : option DraggableLocation) (r : DropResult) :
  Forall (λ d, safe_integer (id d)) ds →
  card_drag ds col i to = Some r →
  ∃ D, D ∈ ds ∧ status D = col
       ∧ parseInt (draggableId r) = Num (id D)
       ∧ source r = at_column col i ∧ destination r = to.
Proof.
  unfold card_drag. intros Hsafe Hdrag.
  destruct (filter (in_column col) ds !! i) as [D|] eqn:HD; [|done].
  injection Hdrag as <-. exists D.
  apply list_elem_of_lookup_2, list_elem_of_filter in HD as [Hcol HD].
  split_and!; [done|done| |done|done].
  apply parseInt_String_of. by apply (proj1 (Forall_forall _ _) Hsafe).
Qed.

(** ** [handleDragEnd], step by step *)

Ltac unfold_board :=
  unfold handleDragEnd, handleDragEnd_begin, handleDragEnd_resume,
    fetchDeals, fetchDeals_begin, fetchDeals_resume,
    call_onStatsRefresh, call_onDealsCountChange, error_timeout,
    setDeals, setLoading, setError, setUpdating, setSelectedDealId,
    read_deals, update_board, update_parent, emit,
    mbind, mret, M_bind, M_ret.

Section Protocol.
Context {Parent : Type} (props : KanbanBoardProps Parent).
Implicit Types (w : World Parent) (r : DropResult) (D : Deal).

Lemma begin_no_destination r w :
  destination r = None → handleDragEnd_begin r w = (None, w).
Proof. intros H. unfold handleDragEnd_begin. by rewrite H. Qed.

Lemma begin_same_place r w :
  destination r = Some (source r) → handleDragEnd_begin r w = (None, w).
Proof.
  intros H. unfold handleDragEnd_begin. rewrite H.
  by rewrite decide_True by done.
Qed.

Lemma begin_absent r w :
  list_find (λ d, Num (id d) = parseInt (draggableId r)) (deals (board w)) = None →
  handleDragEnd_begin r w = (None, w).
Proof.
  intros H. unfold_board.
  destruct (destination r) as [dest|]; [|done].
  case_decide; [done|]. by rewrite H.
Qed.

Lemma begin_found r w dest i D :
  destination r = Some dest → dest ≠ source r →
  list_find (λ d, Num (id d) = parseInt (draggableId r)) (deals (board w))
  = Some (i, D) →
  handleDragEnd_begin r w
  = (Some {| mc_deals := deals (board w);
             mc_dealId := parseInt (draggableId r);
             mc_newStatus := droppableId dest;
             mc_oldStatus := droppableId (source r);
             mc_dealIndex := i;
             mc_originalDeal := D |},
     optimistic w (parseInt (draggableId r)) i D (droppableId dest)).
Proof.
  intros Hdest Hne Hfind. unfold_board. rewrite Hdest.
  rewrite decide_False.
  - by rewrite Hfind.
  - intros [H1 H2]. apply Hne.
    destruct dest, (source r); simpl in *; congruence.
Qed.

(** Either the handler returns at once and nothing has happened, or it
    has found the deal and is waiting for the request. *)
Lemma begin_cases r w :
  handleDragEnd_begin r w = (None, w)
  ∨ ∃ dest i D,
      destination r = Some dest ∧ dest ≠ source r
      ∧ list_find (λ d, Num (id d) = parseInt (draggableId r)) (deals (board w))
        = Some (i, D).
Proof.
  destruct (destination r) as [dest|] eqn:Hdest;
    [|left; by apply begin_no_destination].
  destruct (decide (dest = source r)) as [->|Hne];
    [left; by apply begin_same_place|].
  destruct (list_find (λ d, Num (id d) = parseInt (draggableId r))
              (deals (board w))) as [[i D]|] eqn:Hfind;
    [|left; by apply begin_absent].
  right. by exists dest, i, D.
Qed.

Lemma or_else_STATUS_COLORS (S : DealStatus) (c : option string) :
  or_else (STATUS_COLORS S) c = Some (STATUS_COLORS S).
Proof. by destruct S. Qed.

End Protocol.

(** ** Drops that do nothing *)

(** C10. A drag that ends outside every column (no destination) changes
    nothing: the handler returns before touching the state, no request is
    issued and no callback runs, whatever the state was. *)
Theorem drop_outside_is_noop {Parent : Type} (props : KanbanBoardProps Parent)
    (w : World Parent) (dragged : string) (from : DraggableLocation) (s : Settled) :
  handleDragEnd_begin
    {| draggableId := dragged; source := from; destination := None |} w
  = (None, w)
  ∧ handleDragEnd props
      {| draggableId := dragged; source := from; destination := None |} s w
    = (tt, w)
  ∧ step props {| world := w; inflight := [] |}
      (DragEnd {| draggableId := dragged; source := from; destination := None |})
    = {| world := w; inflight := [] |}.
Proof. done. Qed.

(** C7. When no deal of the store has the dragged identifier, the handler
    returns without doing anything, for every destination: the state is
    untouched, nothing is sent and nothing is notified. *)
Theorem absent_deal_is_noop {Parent : Type} (props : KanbanBoardProps Parent)
    (w : World Parent) (r : DropResult) (dealId : Z) (s : Settled) :
  parseInt (draggableId r) = Num dealId →
  findById dealId (deals (board w)) = None →
  handleDragEnd_begin r w = (None, w)
  ∧ handleDragEnd props r s w = (tt, w)
  ∧ step props {| world := w; inflight := [] |} (DragEnd r)
    = {| world := w; inflight := [] |}.
Proof.
  intros Hparse Habsent%findById_None.
  assert (handleDragEnd_begin r w = (None, w)) as Hbegin.
  { apply begin_absent. by rewrite Hparse. }
  split_and!; [done| |].
  - unfold handleDragEnd, mbind, M_bind. by rewrite Hbegin.
  - unfold step; cbn [world inflight]. by rewrite Hbegin.
Qed.

Lemma absent_deal_is_noop_witness :
  parseInt (draggableId (drag 99 (at_column qualified 0) (Some (at_column lead 0))))
  = Num 99
  ∧ findById 99 (deals (board (loaded_world []))) = None
  ∧ handleDragEnd props0 (drag 99 (at_column qualified 0) (Some (at_column lead 0)))
      Fulfilled (loaded_world [])
    = (tt, loaded_world []).
Proof.
  split; [reflexivity|]. split; [reflexivity|].
  apply (absent_deal_is_noop props0 (loaded_world [])
           (drag 99 (at_column qualified 0) (Some (at_column lead 0)))
           99 Fulfilled); reflexivity.
Defined.

(** A drag identifier that is not a number finds no deal either. *)
Lemma unparsable_drag_is_noop {Parent : Type} (props : KanbanBoardProps Parent)
    (w : World Parent) (r : DropResult) (s : Settled) :
  parseInt (draggableId r) = NaN → handleDragEnd props r s w = (tt, w).
Proof.
  intros Hparse.
  assert (handleDragEnd_begin r w = (None, w)) as Hbegin.
  { apply begin_absent. rewrite Hparse. apply list_find_NaN. }
  unfold handleDragEnd, mbind, M_bind. by rewrite Hbegin.
Qed.

(** C1 (as amended). A drop at the very place the card was taken from, same
    column and same index, changes nothing: the state is untouched,
    no request is issued and no callback runs. *)
Theorem drop_in_place_is_noop {Parent : Type} (props : KanbanBoardProps Parent)
    (w : World Parent) (r : DropResult) (s : Settled) :
  destination r = Some (source r) →
  handleDragEnd_begin r w = (None, w)
  ∧ handleDragEnd props r s w = (tt, w)
  ∧ step props {| world := w; inflight := [] |} (DragEnd r)
    = {| world := w; inflight := [] |}.
Proof.
  intros Hsame.
  assert (handleDragEnd_begin r w = (None, w)) as Hbegin
    by by apply begin_same_place.
  split_and!; [done| |].
  - unfold handleDragEnd, mbind, M_bind. by rewrite Hbegin.
  - unfold step; cbn [world inflight]. by rewrite Hbegin.
Qed.

Lemma drop_in_place_is_noop_witness :
  destination (drag 1 (at_column lead 0) (Some (at_column lead 0)))
  = Some (source (drag 1 (at_column lead 0) (Some (at_column lead 0))))
  ∧ handleDragEnd props0 (drag 1 (at_column lead 0) (Some (at_column lead 0)))
      Fulfilled (loaded_world one_lead)
    = (tt, loaded_world one_lead).
Proof.
  split; [reflexivity|].
  apply (drop_in_place_is_noop props0 (loaded_world one_lead)
           (drag 1 (at_column lead 0) (Some (at_column lead 0))) Fulfilled).
  reflexivity.
Defined.

(** C1, as first stated, fails: with two leads on the board, the first card
    dropped below the second stays in its column, yet the handler sends the
    status update and, once it succeeds, notifies the parent. *)
Lemma same_column_drop_calls_remote :
  card_drag two_leads lead 0 (Some (at_column lead 1))
  = Some (drag 1 (at_column lead 0) (Some (at_column lead 1)))
  ∧ status <$> findById 1 two_leads = Some lead
  ∧ remote_calls
      (trace (handleDragEnd props0 (drag 1 (at_column lead 0) (Some (at_column lead 1)))
                Fulfilled (loaded_world two_leads)).2)
    = [PatchDeal (Num 1) lead]
  ∧ calls_of StatsRefresh
      (trace (handleDragEnd props0 (drag 1 (at_column lead 0) (Some (at_column lead 1)))
                Fulfilled (loaded_world two_leads)).2)
    = 1%nat
  ∧ statsRefreshTrigger
      (parent (handleDragEnd props0 (drag 1 (at_column lead 0) (Some (at_column lead 1)))
                 Fulfilled (loaded_world two_leads)).2)
    = statsRefreshTrigger (parent (loaded_world two_leads)) + 1.
Proof. by vm_compute. Qed.

(** ** Commit and rollback *)

Section Transition.
Context {Parent : Type} (props : KanbanBoardProps Parent).
Implicit Types (w : World Parent) (r : DropResult) (D : Deal).

(** The world after a move whose request was rejected. *)
Lemma rejected_world r w dest i D :
  destination r = Some dest → dest ≠ source r →
  list_find (λ d, Num (id d) = parseInt (draggableId r)) (deals (board w))
  = Some (i, D) →
  (handleDragEnd props r Rejected w).2
  = {| board :=
         {| deals := deals (board w);
            loading := loading (board w);
            error := Some ("Failed to move deal. Reverted to "
                           +:+ status_id (droppableId (source r)) +:+ ".");
            updating := None;
            selectedDealId := selectedDealId (board w) |};
       parent := parent w;
       trace := trace w ++ [PatchDeal (parseInt (draggableId r)) (droppableId dest);
                            ConsoleError "Failed to update deal status:";
                            SetTimeout 3000] |}.
Proof.
  intros Hdest Hne Hfind.
  unfold handleDragEnd, mbind, M_bind.
  rewrite (begin_found r w dest i D Hdest Hne Hfind).
  unfold_board; simpl.
  apply list_find_Some in Hfind as (Hi & _).
  rewrite (list_insert_id _ _ _ Hi).
  by rewrite <- !(assoc_L (++)).
Qed.

(** The world after a move whose request was fulfilled. *)
Lemma fulfilled_world r w dest i D :
  destination r = Some dest → dest ≠ source r →
  list_find (λ d, Num (id d) = parseInt (draggableId r)) (deals (board w))
  = Some (i, D) →
  (handleDragEnd props r Fulfilled w).2
  = {| board :=
         {| deals := <[i := spread_status_color D (droppableId dest)
                               (Some (STATUS_COLORS (droppableId dest)))]>
                       (deals (board w));
            loading := loading (board w);
            error := error (board w);
            updating := None;
            selectedDealId := selectedDealId (board w) |};
       parent := from_option (λ f, f (parent w)) (parent w) (onStatsRefresh props);
       trace := trace w ++ [PatchDeal (parseInt (draggableId r)) (droppableId dest)]
                        ++ from_option (λ _, [StatsRefresh]) [] (onStatsRefresh props) |}.
Proof.
  intros Hdest Hne Hfind.
  unfold handleDragEnd, mbind, M_bind.
  rewrite (begin_found r w dest i D Hdest Hne Hfind).
  unfold optimistic. rewrite or_else_STATUS_COLORS.
  unfold_board; simpl.
  destruct (onStatsRefresh props); simpl; [|done].
  by rewrite <- (assoc_L (++)).
Qed.

End Transition.

Lemma calls_of_app (e : Event) (t1 t2 : list Event) :
  calls_of e (t1 ++ t2) = (calls_of e t1 + calls_of e t2)%nat.
Proof. unfold calls_of. by rewrite filter_app, length_app. Qed.

(** C2. When the status update of a move is rejected, the store is put back
    exactly as it was before the move, so the moved deal has its former
    status and colour again, and the parent is not notified. *)
Theorem rollback_restores_prior_state {Parent : Type} (props : KanbanBoardProps Parent)
    (w : World Parent) (r : DropResult) (dealId : Z) (D : Deal)
    (dest : DraggableLocation) :
  parseInt (draggableId r) = Num dealId →
  findById dealId (deals (board w)) = Some D →
  destination r = Some dest →
  dest ≠ source r →
  deals (board (handleDragEnd props r Rejected w).2) = deals (board w)
  ∧ findById dealId (deals (board (handleDragEnd props r Rejected w).2)) = Some D
  ∧ trace (handleDragEnd props r Rejected w).2
    = trace w ++ [PatchDeal (Num dealId) (droppableId dest);
                  ConsoleError "Failed to update deal status:";
                  SetTimeout 3000]
  ∧ calls_of StatsRefresh (trace (handleDragEnd props r Rejected w).2)
    = calls_of StatsRefresh (trace w)
  ∧ parent (handleDragEnd props r Rejected w).2 = parent w.
Proof.
  intros Hparse (i & Hfind & _)%findById_Some Hdest Hne.
  rewrite <- Hparse in Hfind.
  rewrite (rejected_world props r w dest i D Hdest Hne Hfind); simpl.
  rewrite Hparse in *.
  split_and!; try done.
  - unfold findById. rewrite <- list_find_number. by rewrite Hfind.
  - rewrite calls_of_app. unfold calls_of at 2. simpl. lia.
Qed.

Lemma rollback_restores_prior_state_witness :
  parseInt (draggableId (drag 1 (at_column lead 0) (Some (at_column qualified 0))))
  = Num 1
  ∧ findById 1 (deals (board (loaded_world one_lead))) = Some (sample_deal 1 lead)
  ∧ at_column qualified 0 ≠ at_column lead 0
  ∧ findById 1
      (deals (board (handleDragEnd props0
                       (drag 1 (at_column lead 0) (Some (at_column qualified 0)))
                       Rejected (loaded_world one_lead)).2))
    = Some (sample_deal 1 lead)
  ∧ color (sample_deal 1 lead) = Some "#3b82f6".
Proof.
  split; [reflexivity|]. split; [reflexivity|]. split; [discriminate|].
  split; [|reflexivity].
  apply (rollback_restores_prior_state props0 (loaded_world one_lead)
           (drag 1 (at_column lead 0) (Some (at_column qualified 0)))
           1 (sample_deal 1 lead) (at_column qualified 0));
    [reflexivity|reflexivity|reflexivity|discriminate].
Defined.

(** A move and its answer with nothing in between: when the status update
    is fulfilled, the moved deal has the destination status and the colour
    of that status, every one of the eight statuses being a possible
    destination, and the parent's [onStatsRefresh] has been called exactly
    once. *)
Theorem commit_sets_status_and_notifies {Parent : Type}
    (props : KanbanBoardProps Parent) (notify : Parent → Parent)
    (w : World Parent) (r : DropResult) (dealId : Z) (D : Deal)
    (dest : DraggableLocation) :
  onStatsRefresh props = Some notify →
  parseInt (draggableId r) = Num dealId →
  findById dealId (deals (board w)) = Some D →
  destination r = Some dest →
  dest ≠ source r →
  findById dealId (deals (board (handleDragEnd props r Fulfilled w).2))
  = Some (spread_status_color D (droppableId dest)
            (Some (STATUS_COLORS (droppableId dest))))
  ∧ status <$> findById dealId (deals (board (handleDragEnd props r Fulfilled w).2))
    = Some (droppableId dest)
  ∧ color <$> findById dealId (deals (board (handleDragEnd props r Fulfilled w).2))
    = Some (Some (STATUS_COLORS (droppableId dest)))
  ∧ STATUS_COLORS qualified = "#6366f1"
  ∧ trace (handleDragEnd props r Fulfilled w).2
    = trace w ++ [PatchDeal (Num dealId) (droppableId dest); StatsRefresh]
  ∧ calls_of StatsRefresh (trace (handleDragEnd props r Fulfilled w).2)
    = (calls_of StatsRefresh (trace w) + 1)%nat
  ∧ parent (handleDragEnd props r Fulfilled w).2 = notify (parent w).
Proof.
  intros Hnotify Hparse (i & Hfind & Hid)%findById_Some Hdest Hne.
  pose proof Hfind as Hfind'. rewrite <- Hparse in Hfind'.
  rewrite (fulfilled_world props r w dest i D Hdest Hne Hfind'); simpl.
  rewrite Hparse, Hnotify; simpl.
  rewrite (findById_insert_same dealId _ i D (spread_status_color D _ _) Hfind Hid).
  split_and!; try done.
  rewrite calls_of_app. f_equal.
Qed.

Lemma commit_sets_status_and_notifies_witness :
  onStatsRefresh props0 = Some handleStatsRefresh
  ∧ parseInt (draggableId (drag 1 (at_column lead 0) (Some (at_column qualified 0))))
    = Num 1
  ∧ findById 1 (deals (board (loaded_world one_lead))) = Some (sample_deal 1 lead)
  ∧ at_column qualified 0 ≠ at_column lead 0
  ∧ findById 1
      (deals (board (handleDragEnd props0
                       (drag 1 (at_column lead 0) (Some (at_column qualified 0)))
                       Fulfilled (loaded_world one_lead)).2))
    = Some (sample_deal 1 qualified)
  ∧ color (sample_deal 1 qualified) = Some "#6366f1".
Proof.
  split; [reflexivity|]. split; [reflexivity|]. split; [reflexivity|].
  split; [discriminate|]. split; [|reflexivity].
  apply (commit_sets_status_and_notifies props0 handleStatsRefresh
           (loaded_world one_lead)
           (drag 1 (at_column lead 0) (Some (at_column qualified 0)))
           1 (sample_deal 1 lead) (at_column qualified 0));
    [reflexivity|reflexivity|reflexivity|reflexivity|discriminate].
Defined.

(** ** Other deals are left alone *)

(** A move and its answer with nothing in between: whether the request is
    fulfilled or rejected, every other deal of the store is left as it
    was, in all its fields: the entry of any other identifier is the same
    before the move, while the request is pending, and after it has
    settled; and every position of the store that holds another deal still
    holds that deal. *)
Theorem move_leaves_other_deals {Parent : Type} (props : KanbanBoardProps Parent)
    (w : World Parent) (r : DropResult) (s : Settled) (other : Z) :
  parseInt (draggableId r) ≠ Num other →
  findById other (deals (board (handleDragEnd_begin r w).2))
  = findById other (deals (board w))
  ∧ findById other (deals (board (handleDragEnd props r s w).2))
    = findById other (deals (board w))
  ∧ ∀ (j : nat) (B : Deal),
      id B = other → deals (board w) !! j = Some B →
      deals (board (handleDragEnd props r s w).2) !! j = Some B.
Proof.
  intros Hother.
  destruct (begin_cases r w) as [Hnoop|(dest & i & D & Hdest & Hne & Hfind)].
  - unfold handleDragEnd, mbind, M_bind. by rewrite Hnoop.
  - pose proof Hfind as (Hi & HD & _)%list_find_Some.
    assert (id D ≠ other) as HDother by (intros <-; by rewrite HD in Hother).
    assert (∀ c, findById other
                   (<[i := spread_status_color D (droppableId dest) c]> (deals (board w)))
                 = findById other (deals (board w))) as Hopt.
    { intros c. by apply (findById_insert_other other _ i D). }
    split_and!.
    + rewrite (begin_found r w dest i D Hdest Hne Hfind). apply Hopt.
    + destruct s.
      * rewrite (fulfilled_world props r w dest i D Hdest Hne Hfind). apply Hopt.
      * by rewrite (rejected_world props r w dest i D Hdest Hne Hfind).
    + intros j B HB Hj.
      assert (i ≠ j) as Hij by (intros ->; congruence).
      destruct s.
      * rewrite (fulfilled_world props r w dest i D Hdest Hne Hfind); simpl.
        by rewrite list_lookup_insert_ne.
      * by rewrite (rejected_world props r w dest i D Hdest Hne Hfind).
Qed.

Lemma move_leaves_other_deals_witness :
  parseInt (draggableId (drag 1 (at_column lead 0) (Some (at_column qualified 0))))
  ≠ Num 2
  ∧ findById 2
      (deals (board (handleDragEnd props0
                       (drag 1 (at_column lead 0) (Some (at_column qualified 0)))
                       Rejected (loaded_world two_leads)).2))
    = Some (sample_deal 2 lead).
Proof.
  split; [discriminate|].
  apply (move_leaves_other_deals props0 (loaded_world two_leads)
           (drag 1 (at_column lead 0) (Some (at_column qualified 0)))
           Rejected 2).
  discriminate.
Defined.

(** ** The error shown after a rollback *)

Lemma mentions_reverted_stage (s : DealStatus) :
  mentions (status_id s)
    ("Failed to move deal. Reverted to " +:+ status_id s +:+ ".") = true.
Proof. by destruct s. Qed.

(** C6 (as amended). When the status update of a move is rejected, the board
    shows an error that names the stage the card was taken from, the one it
    is reverted to, and schedules its removal after three seconds. *)
Theorem rollback_error_names_source {Parent : Type} (props : KanbanBoardProps Parent)
    (w : World Parent) (r : DropResult) (dealId : Z) (D : Deal)
    (dest : DraggableLocation) :
  parseInt (draggableId r) = Num dealId →
  findById dealId (deals (board w)) = Some D →
  destination r = Some dest →
  dest ≠ source r →
  error (board (handleDragEnd props r Rejected w).2)
  = Some ("Failed to move deal. Reverted to "
          +:+ status_id (droppableId (source r)) +:+ ".")
  ∧ mentions (status_id (droppableId (source r)))
      ("Failed to move deal. Reverted to "
       +:+ status_id (droppableId (source r)) +:+ ".") = true
  ∧ SetTimeout 3000 ∈ trace (handleDragEnd props r Rejected w).2
  ∧ error (board (error_timeout (handleDragEnd props r Rejected w).2).2) = None.
Proof.
  intros Hparse (i & Hfind & _)%findById_Some Hdest Hne.
  rewrite <- Hparse in Hfind.
  rewrite (rejected_world props r w dest i D Hdest Hne Hfind); simpl.
  split_and!; [done|apply mentions_reverted_stage| |done].
  rewrite elem_of_app. right. set_solver.
Qed.

Lemma rollback_error_names_source_witness :
  parseInt (draggableId (drag 1 (at_column lead 0) (Some (at_column qualified 0))))
  = Num 1
  ∧ findById 1 (deals (board (loaded_world one_lead))) = Some (sample_deal 1 lead)
  ∧ at_column qualified 0 ≠ at_column lead 0
  ∧ error (board (handleDragEnd props0
                    (drag 1 (at_column lead 0) (Some (at_column qualified 0)))
                    Rejected (loaded_world one_lead)).2)
    = Some "Failed to move deal. Reverted to lead.".
Proof.
  split; [reflexivity|]. split; [reflexivity|]. split; [discriminate|].
  apply (rollback_error_names_source props0 (loaded_world one_lead)
           (drag 1 (at_column lead 0) (Some (at_column qualified 0)))
           1 (sample_deal 1 lead) (at_column qualified 0));
    [reflexivity|reflexivity|reflexivity|discriminate].
Defined.

(** C6, as first stated, fails: the error shown after the rejected move of
    deal 1 from Lead to Qualified names Lead only; neither the identifier
    nor the label of the destination stage occurs in it. *)
Lemma rollback_error_omits_destination :
  error (board (handleDragEnd props0
                  (drag 1 (at_column lead 0) (Some (at_column qualified 0)))
                  Rejected (loaded_world one_lead)).2)
  = Some "Failed to move deal. Reverted to lead."
  ∧ mentions (status_id lead) "Failed to move deal. Reverted to lead." = true
  ∧ mentions (status_id qualified) "Failed to move deal. Reverted to lead." = false
  ∧ mentions "Qualified" "Failed to move deal. Reverted to lead." = false.
Proof. by vm_compute. Qed.

(** ** Loading the deals *)

(** C8. A failed fetch leaves the store as it was, whatever it was (empty on
    the first load), sets the error that the banner shows with its Retry
    button, and notifies nobody; Retry sends the request again.  The store
    is only ever replaced by the whole collection of a fulfilled fetch. *)
Theorem fetch_failure_keeps_store {Parent : Type} (props : KanbanBoardProps Parent)
    (w : World Parent) :
  deals (board (fetchDeals_begin w).2) = deals (board w)
  ∧ deals (board (fetchDeals_resume props FetchRejected w).2) = deals (board w)
  ∧ deals (board (fetchDeals props FetchRejected w).2) = deals (board w)
  ∧ deals (board (fetchDeals props FetchRejected
                    {| board := initial_board; parent := parent w; trace := [] |}).2)
    = []
  ∧ error (board (fetchDeals props FetchRejected w).2)
    = Some "Failed to load deals. Please try again."
  ∧ loading (board (fetchDeals props FetchRejected w).2) = false
  ∧ (∃ columns toast detail,
       render (board (fetchDeals props FetchRejected w).2)
       = BoardView (Some {| banner_text := "Failed to load deals. Please try again.";
                            banner_retry := RunFetchDeals |})
                   columns toast detail)
  ∧ parent (fetchDeals props FetchRejected w).2 = parent w
  ∧ trace (fetchDeals props FetchRejected w).2
    = trace w ++ [GetDeals; ConsoleError "Failed to fetch deals:"]
  ∧ trace (world (step props {| world := (fetchDeals props FetchRejected w).2;
                                inflight := [] |} CallFetchDeals))
    = trace (fetchDeals props FetchRejected w).2 ++ [GetDeals]
  ∧ ∀ body,
      deals (board (fetchDeals props (FetchFulfilled body) w).2)
      = match body with Enveloped d => d | BareArray d => d end.
Proof.
  split_and!; try done.
  - unfold render. simpl. eauto.
  - unfold_board; simpl. by rewrite <- (assoc_L (++)).
  - intros body. unfold_board.
    destruct body, (onDealsCountChange props); done.
Qed.

(** ** Moves that overlap *)

(** Whatever the store has become in the meantime, a rollback writes the
    store of the render its handler was started in. *)
Lemma rollback_writes_snapshot {Parent : Type} (props : KanbanBoardProps Parent)
    (c : MoveClosure) (w : World Parent) :
  deals (board (handleDragEnd_resume props c Rejected w).2)
  = <[mc_dealIndex c := mc_originalDeal c]> (mc_deals c).
Proof. done. Qed.

(** C9. What the board does when a second move starts before the first has
    settled: the rollback of the first writes back the store as it was when
    the first move began, so the second move is undone on the board although
    its request was fulfilled; this happens for a second move of another
    deal and for a second move of the same deal, and does not happen when
    the moves follow one another. *)
Theorem stale_rollback_discards_later_move :
  findById 1 (deals (board (world (run props0 (idle two_leads) overlapping_moves))))
  = Some (sample_deal 1 lead)
  ∧ findById 2 (deals (board (world (run props0 (idle two_leads) overlapping_moves))))
    = Some (sample_deal 2 lead)
  ∧ remote_calls (trace (world (run props0 (idle two_leads) overlapping_moves)))
    = [PatchDeal (Num 1) qualified; PatchDeal (Num 2) contacted]
  ∧ calls_of StatsRefresh (trace (world (run props0 (idle two_leads) overlapping_moves)))
    = 1%nat
  ∧ inflight (run props0 (idle two_leads) overlapping_moves) = []
  ∧ findById 2 (deals (board (world (run props0 (idle two_leads) successive_moves))))
    = Some (sample_deal 2 contacted)
  ∧ findById 1
      (deals (board (world (run props0 (idle one_lead) overlapping_moves_of_one_deal))))
    = Some (sample_deal 1 lead)
  ∧ remote_calls
      (trace (world (run props0 (idle one_lead) overlapping_moves_of_one_deal)))
    = [PatchDeal (Num 1) qualified; PatchDeal (Num 1) contacted].
Proof. by vm_compute. Qed.

(** With two moves in flight the request that settles first is found at
    the head of the queue. *)
Lemma settle_move {Parent : Type} (props : KanbanBoardProps Parent)
    (s : Sys Parent) (i : nat) (c : MoveClosure) (r : Settled) :
  inflight s !! i = Some (MoveRequest c) →
  step props s (Settle i r)
  = {| world := (handleDragEnd_resume props c r (world s)).2;
       inflight := delete i (inflight s) |}.
Proof. intros Hi. unfold step. by rewrite Hi. Qed.

(** A fulfilled status update leaves the store as it finds it: what the
    deal looks like afterwards is what the store held when the answer
    came, be it the optimistic entry or what a rollback wrote over it. *)
Lemma fulfilled_settle_keeps_store {Parent : Type} (props : KanbanBoardProps Parent)
    (c : MoveClosure) (w : World Parent) :
  deals (board (handleDragEnd_resume props c Fulfilled w).2) = deals (board w).
Proof. unfold_board. by destruct (onStatsRefresh props). Qed.

(** C3. What the board does when the status update of a move is fulfilled
    after the rollback of an earlier move: deal 1 is dragged to Qualified
    and deal 2 to Contacted, the first request is rejected and the second
    one, the move of deal 2 to Contacted, is fulfilled.  The parent's
    [onStatsRefresh] is called once, but deal 2 is left with the status
    Lead and the colour of Lead, not with the status Contacted and its
    colour. *)
Theorem fulfilled_move_is_undone_by_stale_rollback :
  mc_dealId
    <$> (inflight (run props0 (idle two_leads) first_move_rejected) !! 0%nat
         ≫= closure_of)
  = Some (Num 2)
  ∧ mc_newStatus
      <$> (inflight (run props0 (idle two_leads) first_move_rejected) !! 0%nat
           ≫= closure_of)
    = Some contacted
  ∧ status
      <$> findById 2
            (deals (board (world (step props0
                                    (run props0 (idle two_leads) first_move_rejected)
                                    (Settle 0 Fulfilled)))))
    = Some lead
  ∧ color
      <$> findById 2
            (deals (board (world (step props0
                                    (run props0 (idle two_leads) first_move_rejected)
                                    (Settle 0 Fulfilled)))))
    = Some (Some "#3b82f6")
  ∧ STATUS_COLORS contacted = "#8b5cf6"
  ∧ calls_of StatsRefresh
      (trace (world (step props0 (run props0 (idle two_leads) first_move_rejected)
                       (Settle 0 Fulfilled))))
    = 1%nat
  ∧ inflight (step props0 (run props0 (idle two_leads) first_move_rejected)
                (Settle 0 Fulfilled))
    = [].
Proof. by vm_compute. Qed.

(** C5. What the rollback of one move does to another deal: with the moves
    of deal 1 to Qualified and of deal 2 to Contacted both in flight, deal 2
    is shown in Contacted; when the request of deal 1 is rejected, its
    rollback puts deal 1 back and also resets deal 2 to Lead, status and
    colour. *)
Theorem rollback_of_one_move_resets_another_deal :
  findById 2 (deals (board (world (run props0 (idle two_leads) two_moves_pending))))
  = Some (sample_deal 2 contacted)
  ∧ mc_dealId
      <$> (inflight (run props0 (idle two_leads) two_moves_pending) !! 0%nat
           ≫= closure_of)
    = Some (Num 1)
  ∧ findById 2
      (deals (board (world (step props0
                              (run props0 (idle two_leads) two_moves_pending)
                              (Settle 0 Rejected)))))
    = Some (sample_deal 2 lead)
  ∧ findById 1
      (deals (board (world (step props0
                              (run props0 (idle two_leads) two_moves_pending)
                              (Settle 0 Rejected)))))
    = Some (sample_deal 1 lead)
  ∧ sample_deal 2 lead ≠ sample_deal 2 contacted.
Proof. by vm_compute. Qed.

(** * Further properties of the board *)

(** ** While a move is pending *)

(** X1. As soon as a card is dropped on another place, before the request has
    an answer, the deal has the destination status and its colour, it is
    listed in the destination column and its card is drawn with that
    colour; the board records which deal is being updated, has sent the
    status update and waits for it; nothing has been notified. *)
Theorem optimistic_update_is_visible {Parent : Type}
    (w : World Parent) (r : DropResult) (dealId : Z) (D : Deal)
    (dest : DraggableLocation) (index : nat) :
  parseInt (draggableId r) = Num dealId →
  findById dealId (deals (board w)) = Some D →
  destination r = Some dest →
  dest ≠ source r →
  is_Some (handleDragEnd_begin r w).1
  ∧ findById dealId (deals (board (handleDragEnd_begin r w).2))
    = Some (spread_status_color D (droppableId dest)
              (Some (STATUS_COLORS (droppableId dest))))
  ∧ spread_status_color D (droppableId dest) (Some (STATUS_COLORS (droppableId dest)))
    ∈ column_deals (dealsByStatus (deals (board (handleDragEnd_begin r w).2)))
        {| col_id := droppableId dest; label := "" |}
  ∧ card_borderLeftColor
      (KanbanCard (spread_status_color D (droppableId dest)
                     (Some (STATUS_COLORS (droppableId dest)))) index)
    = STATUS_COLORS (droppableId dest)
  ∧ updating (board (handleDragEnd_begin r w).2) = Some (Num dealId)
  ∧ trace (handleDragEnd_begin r w).2
    = trace w ++ [PatchDeal (Num dealId) (droppableId dest)]
  ∧ parent (handleDragEnd_begin r w).2 = parent w
  ∧ error (board (handleDragEnd_begin r w).2) = error (board w).
Proof.
  intros Hparse (i & Hfind & Hid)%findById_Some Hdest Hne.
  pose proof Hfind as Hfind'. rewrite <- Hparse in Hfind'.
  rewrite (begin_found r w dest i D Hdest Hne Hfind').
  unfold optimistic; simpl. rewrite or_else_STATUS_COLORS, Hparse.
  split_and!; try done.
  - by apply (findById_insert_same dealId _ i D (spread_status_color D _ _)).
  - unfold column_deals; simpl. rewrite dealsByStatus_lookup; simpl.
    apply list_elem_of_filter. split; [done|].
    apply list_elem_of_lookup. exists i.
    apply list_lookup_insert_eq. by eapply dealIndex_in_range.
  - unfold KanbanCard, or_default; simpl. by destruct (droppableId dest).
Qed.

Lemma optimistic_update_is_visible_witness :
  parseInt (draggableId (drag 1 (at_column lead 0) (Some (at_column qualified 0))))
  = Num 1
  ∧ findById 1 (deals (board (loaded_world two_leads))) = Some (sample_deal 1 lead)
  ∧ at_column qualified 0 ≠ at_column lead 0
  ∧ findById 1
      (deals (board (handleDragEnd_begin
                       (drag 1 (at_column lead 0) (Some (at_column qualified 0)))
                       (loaded_world two_leads)).2))
    = Some (sample_deal 1 qualified).
Proof.
  split; [reflexivity|]. split; [reflexivity|]. split; [discriminate|].
  apply (optimistic_update_is_visible (loaded_world two_leads)
           (drag 1 (at_column lead 0) (Some (at_column qualified 0)))
           1 (sample_deal 1 lead) (at_column qualified 0) 0);
    [reflexivity|reflexivity|reflexivity|discriminate].
Defined.

(** ** What a move keeps *)

(** A drag and its answer with nothing in between never add, remove or
    reorder deals, and never change a field of a deal other than its
    status and its colour: this holds while the request is pending and
    after it has settled. *)
Lemma single_move_changes_only_status_and_color {Parent : Type}
    (props : KanbanBoardProps Parent) (w : World Parent) (r : DropResult)
    (s : Settled) :
  other_fields <$> deals (board (handleDragEnd_begin r w).2)
  = other_fields <$> deals (board w)
  ∧ other_fields <$> deals (board (handleDragEnd props r s w).2)
    = other_fields <$> deals (board w)
  ∧ length (deals (board (handleDragEnd props r s w).2)) = length (deals (board w)).
Proof.
  assert (∀ i D S c, deals (board w) !! i = Some D →
            other_fields <$> <[i := spread_status_color D S c]> (deals (board w))
            = other_fields <$> deals (board w)) as Hins.
  { intros i D S c Hi. rewrite list_fmap_insert.
    apply list_insert_id. by rewrite list_lookup_fmap, Hi. }
  assert (other_fields <$> deals (board (handleDragEnd_begin r w).2)
          = other_fields <$> deals (board w)
          ∧ other_fields <$> deals (board (handleDragEnd props r s w).2)
            = other_fields <$> deals (board w)) as [H1 H2].
  { destruct (begin_cases r w) as [Hnoop|(dest & i & D & Hdest & Hne & Hfind)].
    - unfold handleDragEnd, mbind, M_bind. by rewrite Hnoop.
    - pose proof Hfind as (Hi & _)%list_find_Some. split.
      + rewrite (begin_found r w dest i D Hdest Hne Hfind). by apply Hins.
      + destruct s.
        * rewrite (fulfilled_world props r w dest i D Hdest Hne Hfind).
          by apply Hins.
        * by rewrite (rejected_world props r w dest i D Hdest Hne Hfind). }
  split_and!; [done..|].
  by rewrite <- (length_fmap other_fields), H2, length_fmap.
Qed.

(** X3. When every deal of the store has the colour of its status, this is
    still so after a drag, while its request is pending and after it has
    settled either way. *)
Theorem move_keeps_colors_matching {Parent : Type}
    (props : KanbanBoardProps Parent) (w : World Parent) (r : DropResult)
    (s : Settled) :
  Forall color_matches_status (deals (board w)) →
  Forall color_matches_status (deals (board (handleDragEnd_begin r w).2))
  ∧ Forall color_matches_status (deals (board (handleDragEnd props r s w).2)).
Proof.
  intros Hall.
  destruct (begin_cases r w) as [Hnoop|(dest & i & D & Hdest & Hne & Hfind)].
  - unfold handleDragEnd, mbind, M_bind. by rewrite Hnoop.
  - assert (Forall color_matches_status
              (<[i := spread_status_color D (droppableId dest)
                        (Some (STATUS_COLORS (droppableId dest)))]> (deals (board w))))
      as Hmoved by (by apply Forall_insert).
    split.
    + rewrite (begin_found r w dest i D Hdest Hne Hfind).
      unfold optimistic; simpl. by rewrite or_else_STATUS_COLORS.
    + destruct s.
      * by rewrite (fulfilled_world props r w dest i D Hdest Hne Hfind).
      * by rewrite (rejected_world props r w dest i D Hdest Hne Hfind).
Qed.

Lemma move_keeps_colors_matching_witness :
  Forall color_matches_status (deals (board (loaded_world two_leads)))
  ∧ Forall color_matches_status
      (deals (board (handleDragEnd props0
                       (drag 1 (at_column lead 0) (Some (at_column qualified 0)))
                       Fulfilled (loaded_world two_leads)).2)).
Proof.
  split; [by repeat constructor|].
  apply (move_keeps_colors_matching props0 (loaded_world two_leads)
           (drag 1 (at_column lead 0) (Some (at_column qualified 0))) Fulfilled).
  by repeat constructor.
Defined.

(** ** Every status update is answered once *)

Lemma patches_app (t1 t2 : list Event) :
  patches (t1 ++ t2) = (patches t1 + patches t2)%nat.
Proof. unfold patches. by rewrite filter_app, length_app. Qed.

Lemma move_failures_app (t1 t2 : list Event) :
  move_failures (t1 ++ t2) = (move_failures t1 + move_failures t2)%nat.
Proof. apply calls_of_app. Qed.

Lemma moves_in_flight_app (l1 l2 : list InFlight) :
  moves_in_flight (l1 ++ l2) = (moves_in_flight l1 + moves_in_flight l2)%nat.
Proof. unfold moves_in_flight. by rewrite filter_app, length_app. Qed.




(** Evaluates the counts of the explicit ends of traces and queues. *)
Ltac eval_counts :=
  unfold move_failures in *;
  rewrite ?patches_app, ?calls_of_app, ?moves_in_flight_app;
  repeat match goal with
  | |- context [patches (?x :: ?t)] =>
      let n := eval cbv in (patches (x :: t)) in
      change (patches (x :: t)) with n
  | |- context [calls_of ?e (?x :: ?t)] =>
      let n := eval cbv in (calls_of e (x :: t)) in
      change (calls_of e (x :: t)) with n
  | |- context [moves_in_flight (?x :: ?t)] =>
      let n := eval cbv in (moves_in_flight (x :: t)) in
      change (moves_in_flight (x :: t)) with n
  end.




(** ** What no interleaving of moves changes *)

Lemma no_move_in_flight {F : Type} (fields : list F) (of_deal : Deal → F)
    (l : list InFlight) :
  moves_in_flight l = 0%nat → Forall (snapshot_of fields of_deal) l.
Proof.
  induction l as [|x l IH]; [done|].
  change (x :: l) with ([x] ++ l). rewrite moves_in_flight_app.
  destruct x as [c|]; [done|].
  intros Hl. constructor; [done|]. apply IH. simpl in Hl. lia.
Qed.

Lemma step_keeps_other_fields {Parent : Type} (props : KanbanBoardProps Parent)
    (fields : list _) (s : Sys Parent) (a : Action) :
  is_fulfilled_fetch a = false →
  other_fields <$> deals (board (world s)) = fields →
  Forall (snapshot_of fields other_fields) (inflight s) →
  other_fields <$> deals (board (world (step props s a))) = fields
  ∧ Forall (snapshot_of fields other_fields) (inflight (step props s a)).
Proof.
  intros Ha Hfields Hflight.
  destruct a as [|r|i r|i r|]; simpl.
  - split; [done|]. apply Forall_app. split; [done|]. by repeat constructor.
  - destruct (begin_cases r (world s)) as [Hnoop|(dest & i & D & Hdest & Hne & Hfind)].
    + rewrite Hnoop; simpl. by rewrite app_nil_r.
    + rewrite (begin_found r (world s) dest i D Hdest Hne Hfind); simpl.
      pose proof Hfind as (Hi & _)%list_find_Some.
      split.
      * rewrite list_fmap_insert, <- Hfields.
        apply list_insert_id. by rewrite list_lookup_fmap, Hi.
      * apply Forall_app. split; [done|]. by repeat constructor.
  - destruct (inflight s !! i) as [[c|]|] eqn:Hi; [|done..]; simpl.
    pose proof (Forall_lookup_1 _ _ _ _ Hflight Hi) as [Hc1 Hc2].
    split; [|by apply Forall_delete].
    destruct r.
    + by rewrite fulfilled_settle_keeps_store.
    + rewrite rollback_writes_snapshot. by rewrite list_insert_id.
  - destruct (inflight s !! i) as [[c|]|] eqn:Hi; [done| |done]; simpl.
    destruct r as [body|]; [done|].
    split; [done|by apply Forall_delete].
  - done.
Qed.

Lemma run_keeps_other_fields {Parent : Type} (props : KanbanBoardProps Parent)
    (fields : list _) (acts : list Action) :
  no_fulfilled_fetch acts →
  ∀ s : Sys Parent,
    other_fields <$> deals (board (world s)) = fields →
    Forall (snapshot_of fields other_fields) (inflight s) →
    other_fields <$> deals (board (world (run props s acts))) = fields.
Proof.
  induction 1 as [|a acts Ha _ IH]; intros s Hfields Hflight; [done|].
  simpl.
  destruct (step_keeps_other_fields props fields s a Ha Hfields Hflight)
    as [Hfields' Hflight'].
  by apply IH.
Qed.

(** X2. As long as no fetch is fulfilled, no interleaving of drops, answers
    to status updates, failed fetches and timeouts adds, removes or
    reorders deals or changes a field of a deal other than its status and
    its colour: the store keeps its length and, deal by deal, all the other
    fields.  (A fulfilled fetch replaces the store, and a rollback that
    comes after it writes back the store from before the fetch.) *)
Theorem move_changes_only_status_and_color {Parent : Type}
    (props : KanbanBoardProps Parent) (s : Sys Parent) (acts : list Action) :
  moves_in_flight (inflight s) = 0%nat →
  no_fulfilled_fetch acts →
  other_fields <$> deals (board (world (run props s acts)))
  = other_fields <$> deals (board (world s))
  ∧ length (deals (board (world (run props s acts))))
    = length (deals (board (world s))).
Proof.
  intros Hidle Hacts.
  assert (other_fields <$> deals (board (world (run props s acts)))
          = other_fields <$> deals (board (world s))) as Hrun.
  { apply run_keeps_other_fields; [done..|]. by apply no_move_in_flight. }
  split; [done|].
  by rewrite <- (length_fmap other_fields), Hrun, length_fmap.
Qed.

Lemma move_changes_only_status_and_color_witness :
  moves_in_flight (inflight (idle two_leads)) = 0%nat
  ∧ no_fulfilled_fetch overlapping_moves
  ∧ other_fields
      <$> deals (board (world (run props0 (idle two_leads) overlapping_moves)))
    = other_fields <$> deals (board (world (idle two_leads))).
Proof.
  split; [reflexivity|]. split; [by repeat constructor|].
  apply (move_changes_only_status_and_color props0 (idle two_leads)
           overlapping_moves); [reflexivity|by repeat constructor].
Defined.

(** With a fulfilled fetch in between this fails: deal 1 is dragged, the
    board is reloaded and receives three deals, then the status update is
    rejected and its rollback writes back the two deals of before. *)
Example rollback_after_refetch_writes_old_store :
  length (deals (board (world
    (run props0 (idle two_leads)
       [ DragEnd (drag 1 (at_column lead 0) (Some (at_column qualified 0)));
         CallFetchDeals;
         SettleDeals 1 (FetchFulfilled
                          (Enveloped [sample_deal 1 qualified; sample_deal 2 lead;
                                      sample_deal 3 lead])) ]))))
  = 3%nat
  ∧ length (deals (board (world
      (run props0 (idle two_leads)
         [ DragEnd (drag 1 (at_column lead 0) (Some (at_column qualified 0)));
           CallFetchDeals;
           SettleDeals 1 (FetchFulfilled
                            (Enveloped [sample_deal 1 qualified; sample_deal 2 lead;
                                        sample_deal 3 lead]));
           Settle 0 Rejected ]))))
    = 2%nat.
Proof. by vm_compute. Qed.

(** ** The board inside the dashboard *)

Lemma step_dashboard (p0 : DashboardState) (s : Sys DashboardState) (a : Action) :
  dashboard_refreshTrigger (parent (world (step (dashboard_props p0) s a)))
  = dashboard_refreshTrigger (parent (world s))
  ∧ showCreateModal (parent (world (step (dashboard_props p0) s a)))
    = showCreateModal (parent (world s))
  ∧ statsRefreshTrigger (parent (world (step (dashboard_props p0) s a)))
    - Z.of_nat (calls_of StatsRefresh (trace (world (step (dashboard_props p0) s a))))
    = statsRefreshTrigger (parent (world s))
      - Z.of_nat (calls_of StatsRefresh (trace (world s))).
Proof.
  destruct a as [|r|i r|i r|]; simpl.
  - split_and!; [done..|]. eval_counts. lia.
  - destruct (begin_cases r (world s)) as [Hnoop|(dest & i & D & Hdest & Hne & Hfind)].
    + by rewrite Hnoop.
    + rewrite (begin_found r (world s) dest i D Hdest Hne Hfind); simpl.
      split_and!; [done..|]. eval_counts. lia.
  - destruct (inflight s !! i) as [[c|]|] eqn:Hi; [|done..]; simpl.
    destruct r; unfold_board; simpl; (split_and!; [done..|]); eval_counts; lia.
  - destruct (inflight s !! i) as [[c|]|] eqn:Hi; [done| |done]; simpl.
    destruct r as [body|]; unfold_board; simpl;
      (split_and!; [done..|]); eval_counts; lia.
  - done.
Qed.

(** X5. Whatever happens on the board, in whatever order, it never makes the
    dashboard reload the board (the dashboard's [refreshTrigger] and its
    modal flag stay as they are), and [statsRefreshTrigger], on which the
    commission widget reloads, has grown by exactly the number of calls of
    [onStatsRefresh].  Creating a deal ([refreshAll]) is what reloads both,
    and reporting the number of deals reloads neither. *)
Theorem board_only_refreshes_stats (p0 : DashboardState) (s : Sys DashboardState)
    (acts : list Action) :
  dashboard_refreshTrigger (parent (world (run (dashboard_props p0) s acts)))
  = dashboard_refreshTrigger (parent (world s))
  ∧ board_refetches (parent (world s))
      (parent (world (run (dashboard_props p0) s acts))) = false
  ∧ showCreateModal (parent (world (run (dashboard_props p0) s acts)))
    = showCreateModal (parent (world s))
  ∧ statsRefreshTrigger (parent (world (run (dashboard_props p0) s acts)))
    = statsRefreshTrigger (parent (world s))
      + (Z.of_nat (calls_of StatsRefresh
                     (trace (world (run (dashboard_props p0) s acts))))
         - Z.of_nat (calls_of StatsRefresh (trace (world s))))
  ∧ (∀ d, board_refetches (parent (world s))
            (handleDealCreated d (parent (world s))) = true
          ∧ widget_refetches (parent (world s))
              (handleDealCreated d (parent (world s))) = true)
  ∧ (∀ n, board_refetches (parent (world s)) (setDealsCount n (parent (world s)))
          = false
          ∧ widget_refetches (parent (world s)) (setDealsCount n (parent (world s)))
            = false).
Proof.
  assert (dashboard_refreshTrigger (parent (world (run (dashboard_props p0) s acts)))
          = dashboard_refreshTrigger (parent (world s))
          ∧ showCreateModal (parent (world (run (dashboard_props p0) s acts)))
            = showCreateModal (parent (world s))
          ∧ statsRefreshTrigger (parent (world (run (dashboard_props p0) s acts)))
            - Z.of_nat (calls_of StatsRefresh
                          (trace (world (run (dashboard_props p0) s acts))))
            = statsRefreshTrigger (parent (world s))
              - Z.of_nat (calls_of StatsRefresh (trace (world s)))) as (H1 & H2 & H3).
  { revert s. induction acts as [|a acts IH]; intros s; [done|].
    simpl. destruct (IH (step (dashboard_props p0) s a)) as (-> & -> & ->).
    apply step_dashboard. }
  split_and!; [done| |done|lia| |].
  - unfold board_refetches. apply bool_decide_eq_false. rewrite H1. by intros [].
  - intros d. unfold board_refetches, widget_refetches; simpl.
    split; apply bool_decide_eq_true; lia.
  - intros n. unfold board_refetches, widget_refetches; simpl.
    split; apply bool_decide_eq_false; by intros [].
Qed.

(** ** A successful load *)

Lemma column_deals_eq (ds : list Deal) (col : KanbanColumnDef) :
  column_deals (dealsByStatus ds) col = filter (in_column (col_id col)) ds.
Proof. unfold column_deals. by rewrite dealsByStatus_lookup. Qed.

Lemma board_view_eq (ds : list Deal) (isDraggingOver : DealStatus → bool) :
  board_view ds isDraggingOver
  = (λ col, KanbanColumn col (filter (in_column (col_id col)) ds)
              (isDraggingOver (col_id col))) <$> COLUMNS.
Proof.
  unfold board_view. apply list_fmap_ext. intros _ col _.
  by rewrite column_deals_eq.
Qed.

Lemma column_counts_sum (ds : list Deal) (isDraggingOver : DealStatus → bool) :
  sum_list (column_count <$> board_view ds isDraggingOver) = length ds.
Proof.
  rewrite <- (Permutation_length (columns_concat_perm ds)).
  rewrite board_columns_eq, board_view_eq.
  unfold all_statuses; simpl.
  rewrite !length_app; simpl. lia.
Qed.

(** X6. When the fetch is fulfilled, whatever has happened since it was
    issued, the store holds exactly the deals returned, in the order
    returned, and the loading state ends; the dashboard is told the number
    of deals, which is what the badges of the eight columns add up to, and
    telling it does not make the board load again.  The error is cleared
    when the request is issued, not when it is answered: the answer leaves
    it as it finds it, so the board is shown with the banner of an error
    that arose in between and without banner otherwise. *)
Theorem fetched_deals_are_shown_and_counted (p0 : DashboardState)
    (w : World DashboardState) (body : DealsBody)
    (isDraggingOver : DealStatus → bool) :
  deals (board (fetchDeals_resume (dashboard_props p0) (FetchFulfilled body) w).2)
  = match body with Enveloped d => d | BareArray d => d end
  ∧ loading (board (fetchDeals_resume (dashboard_props p0) (FetchFulfilled body) w).2)
    = false
  ∧ error (board (fetchDeals_begin w).2) = None
  ∧ error (board (fetchDeals_resume (dashboard_props p0) (FetchFulfilled body) w).2)
    = error (board w)
  ∧ (∃ columns toast detail,
       render (board (fetchDeals_resume (dashboard_props p0)
                        (FetchFulfilled body) w).2)
       = BoardView
           ((λ e, {| banner_text := e; banner_retry := RunFetchDeals |})
              <$> truthy_string (error (board w)))
           columns toast detail)
  ∧ (∃ columns toast detail,
       render (board (fetchDeals (dashboard_props p0) (FetchFulfilled body) w).2)
       = BoardView None columns toast detail)
  ∧ dealsCount
      (parent (fetchDeals_resume (dashboard_props p0) (FetchFulfilled body) w).2)
    = sum_list
        (column_count
           <$> board_view
                 (deals (board (fetchDeals_resume (dashboard_props p0)
                                  (FetchFulfilled body) w).2))
                 isDraggingOver)
  ∧ trace (fetchDeals_resume (dashboard_props p0) (FetchFulfilled body) w).2
    = trace w
      ++ [DealsCountChange
            (length match body with Enveloped d => d | BareArray d => d end)]
  ∧ board_refetches (parent w)
      (parent (fetchDeals_resume (dashboard_props p0) (FetchFulfilled body) w).2)
    = false.
Proof.
  rewrite column_counts_sum.
  unfold_board; simpl. unfold render; simpl.
  split_and!; try done.
  - eauto.
  - eauto.
  - unfold board_refetches; simpl. apply bool_decide_eq_false. by intros [].
Qed.

(** A move rejected while the fetch is in flight: when the deals arrive the
    banner of the failed move is still shown. *)
Example banner_of_failed_move_survives_fetch :
  error (board (world
    (run props0 (idle two_leads)
       [ CallFetchDeals;
         DragEnd (drag 1 (at_column lead 0) (Some (at_column qualified 0)));
         Settle 1 Rejected;
         SettleDeals 0 (FetchFulfilled (Enveloped two_leads)) ])))
  = Some "Failed to move deal. Reverted to lead.".
Proof. by vm_compute. Qed.

(** ** Clicking a card *)

(** X7. A click on a card selects the deal of that card for the detail modal
    and does nothing else: the store, the error, the update flag and the
    parent are untouched and nothing is sent.  The modal is then open,
    except for a deal whose identifier is 0, which [!!selectedDealId] takes
    for no selection.  A click whose default action was prevented does
    nothing, and closing the modal clears the selection. *)
Theorem card_click_selects_deal {Parent : Type} (w : World Parent) (deal : Deal) :
  card_click false deal w
  = (tt, {| board := {| deals := deals (board w);
                        loading := loading (board w);
                        error := error (board w);
                        updating := updating (board w);
                        selectedDealId := Some (id deal) |};
            parent := parent w;
            trace := trace w |})
  ∧ match render (board (card_click false deal w).2) with
    | LoadingView => loading (board w) = true
    | BoardView _ _ _ detailOpen => detailOpen = bool_decide (id deal ≠ 0)
    end
  ∧ card_click true deal w = (tt, w)
  ∧ KanbanCard_handleClick false deal None w = (tt, w)
  ∧ selectedDealId (board (close_detail (card_click false deal w).2).2) = None
  ∧ match render (board (close_detail (card_click false deal w).2).2) with
    | LoadingView => loading (board w) = true
    | BoardView _ _ _ detailOpen => detailOpen = false
    end.
Proof.
  split_and!; try done.
  - unfold card_click, KanbanCard_handleClick, handleCardClick.
    unfold_board; simpl. unfold render; simpl.
    destruct (loading (board w)); [done|].
    apply bool_decide_ext. split.
    + intros [_ H] Hz. apply H. by rewrite Hz.
    + intros H. split; [by eexists|]. intros [= Hz]. by apply H.
  - unfold card_click, KanbanCard_handleClick, handleCardClick, close_detail.
    unfold_board; simpl. unfold render; simpl.
    by destruct (loading (board w)).
Qed.

(** ** From the cards to the handler *)





(** X9. With identifiers in the store that are distinct safe integers,
    dropping the card shown at a place of a column on another place moves
    the very deal shown there: it is that deal the handler finds, its
    identifier that is sent with the destination status, and the stage the
    board would revert to is the status the deal had. *)
Theorem dragging_a_card_moves_its_deal {Parent : Type} (w : World Parent)
    (col : DealStatus) (i : nat) (dest : DraggableLocation) (r : DropResult) :
  Forall safe_integer (id <$> deals (board w)) →
  NoDup (id <$> deals (board w)) →
  card_drag (deals (board w)) col i (Some dest) = Some r →
  dest ≠ at_column col i →
  ∃ D,
    column_deals (dealsByStatus (deals (board w))) {| col_id := col; label := "" |} !! i
    = Some D
    ∧ status D = col
    ∧ mc_originalDeal <$> (handleDragEnd_begin r w).1 = Some D
    ∧ mc_oldStatus <$> (handleDragEnd_begin r w).1 = Some (status D)
    ∧ trace (handleDragEnd_begin r w).2
      = trace w ++ [PatchDeal (Num (id D)) (droppableId dest)]
    ∧ findById (id D) (deals (board (handleDragEnd_begin r w).2))
      = Some (spread_status_color D (droppableId dest)
                (Some (STATUS_COLORS (droppableId dest)))).
Proof.
  intros Hsafe Hnodup Hdrag Hne. unfold card_drag in Hdrag.
  destruct (filter (in_column col) (deals (board w)) !! i) as [D|] eqn:HD; [|done].
  injection Hdrag as <-. exists D.
  pose proof HD as [Hcol Hmem]%list_elem_of_lookup_2%list_elem_of_filter.
  assert (safe_integer (id D)) as HsafeD.
  { rewrite Forall_fmap, Forall_forall in Hsafe. by apply Hsafe. }
  pose proof (findById_member _ _ Hnodup Hmem) as (j & Hfind & _)%findById_Some.
  rewrite <- (parseInt_String_of (id D) HsafeD) in Hfind.
  rewrite (begin_found
             {| draggableId := String_of (id D);
                source := {| droppableId := col; index := i |};
                destination := Some dest |} w dest j D eq_refl Hne Hfind).
  unfold optimistic; simpl.
  rewrite or_else_STATUS_COLORS, (parseInt_String_of _ HsafeD).
  rewrite (parseInt_String_of _ HsafeD) in Hfind.
  split_and!; try done.
  - by rewrite column_deals_eq.
  - by rewrite Hcol.
  - by apply (findById_insert_same (id D) _ j D (spread_status_color D _ _)).
Qed.

Lemma dragging_a_card_moves_its_deal_witness :
  Forall safe_integer (id <$> deals (board (loaded_world two_leads)))
  ∧ NoDup (id <$> deals (board (loaded_world two_leads)))
  ∧ card_drag (deals (board (loaded_world two_leads))) lead 1
      (Some (at_column qualified 0))
    = Some (drag 2 (at_column lead 1) (Some (at_column qualified 0)))
  ∧ at_column qualified 0 ≠ at_column lead 1
  ∧ ∃ D,
      column_deals (dealsByStatus (deals (board (loaded_world two_leads))))
        {| col_id := lead; label := "" |} !! 1%nat
      = Some D
      ∧ status D = lead
      ∧ mc_originalDeal
          <$> (handleDragEnd_begin
                 (drag 2 (at_column lead 1) (Some (at_column qualified 0)))
                 (loaded_world two_leads)).1
        = Some D
      ∧ mc_oldStatus
          <$> (handleDragEnd_begin
                 (drag 2 (at_column lead 1) (Some (at_column qualified 0)))
                 (loaded_world two_leads)).1
        = Some (status D)
      ∧ trace (handleDragEnd_begin
                 (drag 2 (at_column lead 1) (Some (at_column qualified 0)))
                 (loaded_world two_leads)).2
        = trace (loaded_world two_leads)
          ++ [PatchDeal (Num (id D)) (droppableId (at_column qualified 0))]
      ∧ findById (id D)
          (deals (board (handleDragEnd_begin
                           (drag 2 (at_column lead 1) (Some (at_column qualified 0)))
                           (loaded_world two_leads)).2))
        = Some (spread_status_color D (droppableId (at_column qualified 0))
                  (Some (STATUS_COLORS (droppableId (at_column qualified 0))))).
Proof.
  split; [apply (bool_decide_unpack _); by vm_compute|].
  split; [apply (bool_decide_unpack _); by vm_compute|].
  split; [reflexivity|]. split; [discriminate|].
  apply (dragging_a_card_moves_its_deal (loaded_world two_leads) lead 1
           (at_column qualified 0)
           (drag 2 (at_column lead 1) (Some (at_column qualified 0))));
    [apply (bool_decide_unpack _); by vm_compute
    |apply (bool_decide_unpack _); by vm_compute|reflexivity|discriminate].
Defined.

(** Beyond the safe integers this fails: the card of the deal 10^21 has the
    [draggableId] "1e+21", which is read back as 1, so dropping it moves
    deal 1. *)
Example unsafe_identifier_moves_another_deal :
  card_drag [sample_deal 1 lead; sample_deal (10 ^ 21) lead] lead 1
    (Some (at_column qualified 0))
  = Some {| draggableId := "1e+21"; source := at_column lead 1;
            destination := Some (at_column qualified 0) |}
  ∧ trace (handleDragEnd_begin
             {| draggableId := "1e+21"; source := at_column lead 1;
                destination := Some (at_column qualified 0) |}
             (loaded_world [sample_deal 1 lead; sample_deal (10 ^ 21) lead])).2
    = [PatchDeal (Num 1) qualified].
Proof. by vm_compute. Qed.

(** ** The columns as drawn *)

(** X10. The board always draws the eight columns in their fixed order.  Each
    one shows as its count the number of deals of the store with its
    status, draws their cards in the order of the store with the indices
    0, 1, 2, ... that the drag and drop library expects, and shows the
    "No deals" placeholder exactly when no deal has its status and no card
    is being dragged over it. *)
Theorem columns_show_the_store (ds : list Deal) (isDraggingOver : DealStatus → bool) :
  column_droppableId <$> board_view ds isDraggingOver = all_statuses
  ∧ ∀ cv, cv ∈ board_view ds isDraggingOver →
      column_count cv = length (filter (in_column (column_droppableId cv)) ds)
      ∧ length (column_cards cv) = column_count cv
      ∧ (column_noDeals cv = true
         ↔ Forall (λ d, status d ≠ column_droppableId cv) ds
           ∧ isDraggingOver (column_droppableId cv) = false)
      ∧ ∀ j c, column_cards cv !! j = Some c →
          card_index c = j
          ∧ ∃ d, filter (in_column (column_droppableId cv)) ds !! j = Some d
                 ∧ c = KanbanCard d j.
Proof.
  rewrite board_view_eq. split; [done|].
  intros cv (col & -> & _)%list_elem_of_fmap. simpl.
  split_and!; [done|by rewrite length_imap| |].
  - rewrite andb_true_iff, bool_decide_eq_true, negb_true_iff.
    rewrite length_zero_iff_nil.
    assert (filter (in_column (col_id col)) ds = []
            ↔ Forall (λ d, status d ≠ col_id col) ds) as ->; [|done].
    rewrite Forall_forall. split.
    + intros Hnil d Hd Hs.
      assert (d ∈ filter (in_column (col_id col)) ds) as Hin
        by (by apply list_elem_of_filter).
      rewrite Hnil in Hin. by apply not_elem_of_nil in Hin.
    + intros Hall. induction ds as [|d l IH]; [done|].
      rewrite filter_cons_False; [|apply Hall; by left].
      apply IH. intros d' Hd'. apply Hall. by right.
  - intros j c Hc. rewrite list_lookup_imap in Hc.
    destruct (filter (in_column (col_id col)) ds !! j) as [d|]; [|done].
    injection Hc as <-. eauto.
Qed.

(** ** The commission widget *)

(** X11. A failed refresh of the statistics keeps the figures that were shown
    and ends the loading state; if nothing was ever loaded the widget
    shows zeros and no period.  Once a request has settled the widget never
    goes back to the grey boxes, whatever later refreshes do, and figures
    that were loaded stay through any number of failed refreshes.  A
    successful drag makes the widget refresh. *)
Theorem widget_keeps_figures_on_failure (st : WidgetState) (r : StatsSettled)
    (data : DashboardStats) (rs : list StatsSettled) (n : nat)
    (p : DashboardState) :
  stats (fetchStats_resume StatsRejected st).1 = stats st
  ∧ widget_loading (fetchStats_resume r st).1 = false
  ∧ widget_render (fetchStats_resume StatsRejected initial_widget).1
    = Figures "" 0 0 0 0
  ∧ widget_render (fetchStats_resume (StatsFulfilled data) st).1
    = Figures ("Periode " +:+ String_of (month data) +:+ "/"
               +:+ String_of (year data))
              (total_paid_commission data) (total_pending_commission data)
              (total_active_deals data) (total_sales_revenue data)
  ∧ widget_render (widget_after (fetchStats_resume r st).1 rs) ≠ Skeleton
  ∧ widget_render
      (widget_after (fetchStats_resume (StatsFulfilled data) st).1
         (replicate n StatsRejected))
    = widget_render (fetchStats_resume (StatsFulfilled data) st).1
  ∧ widget_refetches p (handleStatsRefresh p) = true.
Proof.
  split_and!; try done.
  - by destruct r.
  - assert (∀ st', widget_loading st' = false →
              widget_loading (widget_after st' rs) = false) as Hstay.
    { induction rs as [|r' rs IH]; intros st' Hst'; [done|].
      simpl. apply IH. by destruct r'. }
    unfold widget_render. rewrite Hstay; [done|by destruct r].
  - f_equal. induction n as [|n IH]; [done|]. exact IH.
  - unfold widget_refetches; simpl. apply bool_decide_eq_true. lia.
Qed.

(** ** Signing out on 401 *)

(** X12. After an answer with status 401 the token and the user are gone from
    the local storage, everything else in it is untouched, the page is the
    login page, and the requests that follow are sent without the
    [Authorization] header being set; an error with any other status, or
    without response, changes nothing. *)
Theorem unauthorized_response_signs_out (b : Browser) (config : RequestConfig)
    (status : option Z) :
  localStorage (response_error_interceptor (Some 401) b) !! "auth_token" = None
  ∧ localStorage (response_error_interceptor (Some 401) b) !! "auth_user" = None
  ∧ (∀ k, k ≠ "auth_token" → k ≠ "auth_user" →
          localStorage (response_error_interceptor (Some 401) b) !! k
          = localStorage b !! k)
  ∧ pathname (response_error_interceptor (Some 401) b) = "/login"
  ∧ request_interceptor (response_error_interceptor (Some 401) b) config = config
  ∧ (status ≠ Some 401 → response_error_interceptor status b = b).
Proof.
  unfold response_error_interceptor. rewrite decide_True by done. simpl.
  split_and!.
  - rewrite lookup_delete_ne by done. apply lookup_delete_eq.
  - apply lookup_delete_eq.
  - intros k H1 H2. by rewrite !lookup_delete_ne.
  - by case_decide.
  - unfold request_interceptor; simpl.
    by rewrite lookup_delete_ne, lookup_delete_eq.
  - intros Hne. by rewrite decide_False.
Qed.

(** X13. With a token in the local storage every request carries it as
    [Authorization: Bearer <token>] and keeps its other headers and its
    address. *)
Theorem stored_token_is_sent (b : Browser) (config : RequestConfig) (token : string) :
  localStorage b !! "auth_token" = Some token →
  token ≠ "" →
  default ∅ (headers (request_interceptor b config)) !! "Authorization"
  = Some ("Bearer " +:+ token)
  ∧ (∀ k, k ≠ "Authorization" →
          default ∅ (headers (request_interceptor b config)) !! k
          = default ∅ (headers config) !! k)
  ∧ url (request_interceptor b config) = url config.
Proof.
  intros Htoken Hne. unfold request_interceptor. rewrite Htoken; simpl.
  rewrite decide_False by done. simpl.
  split_and!; [apply lookup_insert_eq| |done].
  intros k Hk. by rewrite lookup_insert_ne.
Qed.

Lemma stored_token_is_sent_witness :
  ({[ "auth_token" := "t0k3n" ]} : gmap string string) !! "auth_token" = Some "t0k3n"
  ∧ "t0k3n" ≠ ""
  ∧ default ∅ (headers (request_interceptor
                          {| localStorage := {[ "auth_token" := "t0k3n" ]};
                             pathname := "/dashboard" |}
                          {| url := "/deals"; headers := None |}))
      !! "Authorization"
    = Some "Bearer t0k3n".
Proof.
  split; [reflexivity|]. split; [discriminate|].
  apply (stored_token_is_sent
           {| localStorage := {[ "auth_token" := "t0k3n" ]}; pathname := "/dashboard" |}
           {| url := "/deals"; headers := None |} "t0k3n");
    [reflexivity|discriminate].
Defined.

(** ** Searching contacts, logging an activity *)





(** Beyond the safe integers this fails: a modal opened for the deal 10^21
    posts the deal 1. *)
Example unsafe_preselected_deal_is_misread :
  deal_id (submit_payload (reset_form "2025-01-01T09:00" None (Some (10 ^ 21))))
  = Some (Num 1).
Proof. by vm_compute. Qed.
